(** * Kujali budgets: the add-note command handler and the budget selection
      page, embedded from their TypeScript sources.

    - [AddNote]: [AddNoteToBudgetHandler.execute] with its repository path,
      validation and result.
    - [Budgets]: [SelectBudgetPageComponent] ([allBudgets], [setActive]) and
      [BudgetTableComponent] ([openChildBudgetDialog], [translateStatus]),
      over a store of JavaScript objects with identity.

    Conventions.  A JavaScript string is its sequence of UTF-16 code units.
    Code that throws, logs or writes to a collaborator runs in the monad
    [Eff W], a state monad over the world [W] with exceptions; a state
    change made before a [throw] stays, as in JavaScript. *)

From Stdlib Require Import ZArith NArith Ascii.
From stdpp Require Import base option list gmap strings.

Open Scope Z_scope.

(* ===================================================================== *)
(** ** JavaScript strings *)
(* ===================================================================== *)

Module Js.

(** A string value: UTF-16 code units. *)
Definition JsString := list N.

(** A string literal of the source (all of them are ASCII). *)
Definition lit (s : string) : JsString :=
  N_of_ascii <$> String.list_ascii_of_string s.

(** ECMAScript WhiteSpace and LineTerminator code points, the characters
    [String.prototype.trim] strips. *)
Definition isWhiteSpace (c : N) : bool :=
  ((9 <=? c) && (c <=? 13)              (* TAB LF VT FF CR *)
   || (c =? 32)                         (* SP *)
   || (c =? 160)                        (* NBSP *)
   || (c =? 5760)                       (* U+1680 *)
   || (8192 <=? c) && (c <=? 8202)      (* U+2000 .. U+200A *)
   || (c =? 8232) || (c =? 8233)        (* LS PS *)
   || (c =? 8239) || (c =? 8287)        (* U+202F U+205F *)
   || (c =? 12288)                      (* U+3000 *)
   || (c =? 65279))%N.                  (* U+FEFF *)

Fixpoint trimStart (s : JsString) : JsString :=
  match s with
  | c :: s' => if isWhiteSpace c then trimStart s' else s
  | [] => []
  end.

Definition trimEnd (s : JsString) : JsString :=
  reverse (trimStart (reverse s)).

(** [s.trim()] *)
Definition trim (s : JsString) : JsString := trimEnd (trimStart s).

(** [!s] on a string: only the empty string is falsy. *)
Definition not (s : JsString) : bool :=
  match s with [] => true | _ => false end.

(** [a === b] on strings. *)
Definition strictEq (a b : JsString) : bool := bool_decide (a = b).

(** [Number.isSafeInteger(z)] on an integer: up to 2^53 - 1 in absolute
    value.  Every integer up to 2^53 in absolute value is a double, so a
    sum or difference of safe integers that stays within 2^53 is the exact
    one; beyond, a double rounds. *)
Definition isSafeInteger (z : Z) : bool :=
  (Z.abs z <=? 2 ^ 53 - 1)%Z.

End Js.

Abbreviation JsString := Js.JsString.
Abbreviation lit := Js.lit.

(* ===================================================================== *)
(** ** Effects: state and exceptions *)
(* ===================================================================== *)

(** What a [throw] carries: [new Error(message)], or the TypeError the
    engine raises on a member access through [undefined]. *)
Inductive Exn :=
  | Error (message : JsString)
  | TypeError.

Definition Eff (W A : Type) : Type := W → (Exn + A) * W.

Definition ret {W A} (a : A) : Eff W A := λ w, (inr a, w).

Definition bind {W A B} (m : Eff W A) (k : A → Eff W B) : Eff W B :=
  λ w, match m w with
       | (inr a, w') => k a w'
       | (inl e, w') => (inl e, w')
       end.

Definition throw {W A} (e : Exn) : Eff W A := λ w, (inl e, w).

Definition get {W} : Eff W W := λ w, (inr w, w).

Definition modify {W} (f : W → W) : Eff W unit := λ w, (inr tt, f w).

Declare Scope eff_scope.
Delimit Scope eff_scope with eff.
Notation "x <- m ;; k" := (bind m (λ x, k))
  (at level 100, m at next level, right associativity) : eff_scope.
Notation "m ;;; k" := (bind m (λ _, k))
  (at level 100, right associativity) : eff_scope.

(** [if (c) { body }] with [body] ending in a [throw] or falling through. *)
Definition when {W} (c : bool) (body : Eff W unit) : Eff W unit :=
  if c then body else ret tt.

(** [xs.map(f)] with an effectful callback, called left to right. *)
Fixpoint mapM {W A B} (f : A → Eff W B) (xs : list A) : Eff W (list B) :=
  match xs with
  | [] => ret []
  | x :: xs' =>
      (y <- f x ;; ys <- mapM f xs' ;; ret (y :: ys))%eff
  end.

(* ===================================================================== *)
(** ** add-note.handler.ts *)
(* ===================================================================== *)

Module AddNote.

(** [AddNoteToBudgetCommand] *)
Record AddNoteToBudgetCommand := {
  orgId : JsString;
  budgetId : JsString;
  content : JsString;
}.

(** Modelled from the spec: the [Notes] model of
    [@app/model/finance/notes/base], whose declaration is not in the
    sources: a record with the single free-text field [note]; as an
    [IObject] it has an [id], absent until the repository assigns it. *)
Record Notes := {
  id : option JsString;
  note : JsString;
}.

(** [AddNoteToBudgetResult extends IObject].  [createdNote.id!] is the same
    value as [createdNote.id]: the non-null assertion is erased. *)
Record AddNoteToBudgetResult := {
  r_id : option JsString;
  r_noteId : option JsString;
  r_budgetId : JsString;
  r_content : JsString;
}.

(** What [HandlerTools] gives access to: the logger's output and the
    document collections, one per repository path, oldest document first. *)
Record Tools := {
  Logger : list JsString;
  collections : gmap JsString (list Notes);
}.

#[export] Instance Notes_eq_dec : EqDecision Notes.
Proof. solve_decision. Defined.

Definition documents (path : JsString) (t : Tools) : list Notes :=
  default [] (collections t !! path).

(** [BUDGET_NOTES_REPO] *)
Definition BUDGET_NOTES_REPO (orgId budgetId : JsString) : JsString :=
  lit "orgs/" ++ orgId ++ lit "/budgets/" ++ budgetId ++ lit "/notes".

Section Handler.

(** The identifier the repository gives a new document of the collection
    at a path, from what the collection holds. *)
Variable newId : JsString → list Notes → JsString.

(** [tools.Logger.log(() => msg)] *)
Definition log (msg : JsString) : Eff Tools unit :=
  modify (λ t, {| Logger := Logger t ++ [msg]; collections := collections t |}).

(** Modelled from the spec: the repository [tools.getRepository] returns
    is not in the sources; the spec gives it as [create(record) ->
    record-with-id], the repository assigning the identifier.
    [tools.getRepository<Notes>(path).create(note)] stores the record under
    a new identifier and resolves to the stored record.  A [create] that
    rejects, which [execute] does not catch, is not modelled: the
    properties of [execute] are about runs in which the repository stores
    the record. *)
Definition create (path : JsString) (n : Notes) : Eff Tools Notes :=
  (t <- get ;;
   let created := {| id := Some (newId path (documents path t)); note := note n |} in
   modify (λ _, {| Logger := Logger t;
                   collections := <[path := documents path t ++ [created]]> (collections t) |}) ;;;
   ret created)%eff.

(** [AddNoteToBudgetHandler.execute] *)
Definition execute (command : AddNoteToBudgetCommand) : Eff Tools AddNoteToBudgetResult :=
  (log (lit "[AddNoteToBudgetHandler].execute: Adding note to budget "
          ++ budgetId command ++ lit " for org " ++ orgId command) ;;;
   when (Js.not (content command) || (length (Js.trim (content command)) =? 0)%nat)
     (log (lit "[AddNoteToBudgetHandler].execute: Validation failed - note content is empty") ;;;
      throw (Error (lit "Note content cannot be empty"))) ;;;
   when (Js.not (budgetId command) || (length (Js.trim (budgetId command)) =? 0)%nat)
     (log (lit "[AddNoteToBudgetHandler].execute: Validation failed - budget ID is empty") ;;;
      throw (Error (lit "Budget ID cannot be empty"))) ;;;
   when (Js.not (orgId command) || (length (Js.trim (orgId command)) =? 0)%nat)
     (log (lit "[AddNoteToBudgetHandler].execute: Validation failed - organisation ID is empty") ;;;
      throw (Error (lit "Organisation ID cannot be empty"))) ;;;
   let notesRepo := BUDGET_NOTES_REPO (orgId command) (budgetId command) in
   let note := {| id := None; note := Js.trim (content command) |} in
   log (lit "[AddNoteToBudgetHandler].execute: Creating note in repository") ;;;
   createdNote <- create notesRepo note ;;
   log (lit "[AddNoteToBudgetHandler].execute: Note created with ID "
          ++ default (lit "undefined") (id createdNote)) ;;;
   ret {| r_id := id createdNote;
          r_noteId := id createdNote;
          r_budgetId := budgetId command;
          r_content := Js.trim (content command) |})%eff.

End Handler.

End AddNote.

(* ===================================================================== *)
(** ** select-budget.component.ts and budget-table.component.ts *)
(* ===================================================================== *)

Module Budgets.

(** The identity of an object.  Arrays hold references, so two arrays can
    share an element.  A reference that designates no object of the store
    stands for [undefined]: a member access through it throws. *)
Abbreviation ref := positive.

Module BudgetStatus.
(** Modelled from the spec: the [BudgetStatus] enumeration of
    [@app/model/finance/planning/budgets], whose declaration is not in the
    sources; the spec gives its members as the integers 1 (in use), 0
    (under construction), 9 (archived) and -1 (deleted). *)
Definition InUse : Z := 1.
Definition UnderConstruction : Z := 0.
Definition Archived : Z := 9.
Definition Deleted : Z := -1.
End BudgetStatus.

(** The access descriptor of a budget, with the members the commented-out
    policy of [BudgetTableComponent.access] reads. *)
Record BudgetAccess := {
  owner : bool;
  view : bool;
  edit : bool;
}.

(** Modelled from the spec: the [Budget] interface of
    [@app/model/finance/planning/budgets], whose declaration is not in the
    sources.  The members are those the spec lists and the components
    read or write; [None] is a property the object does not have.  The
    years are integers, as the spec has them, and sums of them are exact:
    this is the code's arithmetic on doubles as long as the numbers are
    safe integers ([Js.isSafeInteger]), which the properties of [endYear]
    assume. *)
Record Budget := {
  id : JsString;
  name : JsString;
  status : Z;
  startYear : Z;
  duration : Z;
  endYear : option Z;
  parentId : option JsString;
  canBeActivated : option bool;
  access : option BudgetAccess;
}.

(** Modelled from the spec: the [BudgetRecord] interface of
    [@app/model/finance/planning/budgets], whose declaration is not in the
    sources: a budget with its children and the flag [updating], a
    property [setActive] adds.  A child is itself a record, as
    [openChildBudgetDialog] reads it ([child.budget]). *)
Record BudgetRecord := {
  budget : ref;
  children : list ref;
  updating : option bool;
}.

(** [budget['endYear'] = v] *)
Definition set_endYear (v : Z) (b : Budget) : Budget :=
  {| id := id b; name := name b; status := status b; startYear := startYear b;
     duration := duration b; endYear := Some v; parentId := parentId b;
     canBeActivated := canBeActivated b; access := access b |}.

(** [delete b.canBeActivated] *)
Definition delete_canBeActivated (b : Budget) : Budget :=
  {| id := id b; name := name b; status := status b; startYear := startYear b;
     duration := duration b; endYear := endYear b; parentId := parentId b;
     canBeActivated := None; access := access b |}.

(** [delete b.access] *)
Definition delete_access (b : Budget) : Budget :=
  {| id := id b; name := name b; status := status b; startYear := startYear b;
     duration := duration b; endYear := endYear b; parentId := parentId b;
     canBeActivated := canBeActivated b; access := None |}.

(** [b.status = v] *)
Definition set_status (v : Z) (b : Budget) : Budget :=
  {| id := id b; name := name b; status := v; startYear := startYear b;
     duration := duration b; endYear := endYear b; parentId := parentId b;
     canBeActivated := canBeActivated b; access := access b |}.

(** [r.updating = v] *)
Definition set_updating (v : bool) (r : BudgetRecord) : BudgetRecord :=
  {| budget := budget r; children := children r; updating := Some v |}.

(** A call of [MatDialog.open(ChildBudgetsModalComponent, config)]. *)
Record DialogOpen := {
  component : string;
  height : string;
  minWidth : string;
  data_parent : ref;
  data_budgets : option (list ref);
}.

(** The objects the components share, the collaborators' view of the calls
    made to them, and the table's own field [overviewBudgets]. *)
Record World := {
  budgets : gmap ref Budget;
  records : gmap ref BudgetRecord;
  updates : list ref;            (* arguments of [_budgets$$.update] *)
  logs : list JsString;          (* [_logger.log] *)
  dialogs : list DialogOpen;     (* [_dialog.open] *)
  overviewBudgets : list ref;    (* [BudgetTableComponent.overviewBudgets] *)
}.

Definition with_budgets (f : gmap ref Budget → gmap ref Budget) (w : World) : World :=
  {| budgets := f (budgets w); records := records w; updates := updates w;
     logs := logs w; dialogs := dialogs w; overviewBudgets := overviewBudgets w |}.

Definition with_records (f : gmap ref BudgetRecord → gmap ref BudgetRecord) (w : World) : World :=
  {| budgets := budgets w; records := f (records w); updates := updates w;
     logs := logs w; dialogs := dialogs w; overviewBudgets := overviewBudgets w |}.

Definition with_updates (f : list ref → list ref) (w : World) : World :=
  {| budgets := budgets w; records := records w; updates := f (updates w);
     logs := logs w; dialogs := dialogs w; overviewBudgets := overviewBudgets w |}.

Definition with_logs (f : list JsString → list JsString) (w : World) : World :=
  {| budgets := budgets w; records := records w; updates := updates w;
     logs := f (logs w); dialogs := dialogs w; overviewBudgets := overviewBudgets w |}.

Definition with_dialogs (f : list DialogOpen → list DialogOpen) (w : World) : World :=
  {| budgets := budgets w; records := records w; updates := updates w;
     logs := logs w; dialogs := f (dialogs w); overviewBudgets := overviewBudgets w |}.

(** *** Object access *)

(** Reading a member of the budget at [l]. *)
Definition getBudget (l : ref) : Eff World Budget :=
  λ w, match budgets w !! l with
       | Some b => (inr b, w)
       | None => (inl TypeError, w)
       end.

Definition getRecord (l : ref) : Eff World BudgetRecord :=
  λ w, match records w !! l with
       | Some r => (inr r, w)
       | None => (inl TypeError, w)
       end.

(** Writing the budget at [l] in place: an assignment to, or a [delete] of,
    one of its properties. *)
Definition updateBudget (l : ref) (f : Budget → Budget) : Eff World unit :=
  (b <- getBudget l ;; modify (with_budgets <[l := f b]>))%eff.

Definition updateRecord (l : ref) (f : BudgetRecord → BudgetRecord) : Eff World unit :=
  (r <- getRecord l ;; modify (with_records <[l := f r]>))%eff.

(** lodash [cloneDeep] of a budget: a new object with the same members (an
    access descriptor is a value here, so it is copied with them);
    [cloneDeep(undefined)] is [undefined]. *)
Definition ___cloneDeep (l : ref) : Eff World ref :=
  λ w, match budgets w !! l with
       | Some b =>
           let l' := fresh (dom (budgets w)) in
           (inr l', with_budgets <[l' := b]> w)
       | None => (inr l, w)
       end.

(** *** lodash [flatMap] with its default iteratee *)

(** A value of the collection handed to [flatMap]: an object, or an array
    of objects. *)
Inductive Item :=
  | One (r : ref)
  | Many (rs : list ref).

(** [baseFlatten(values, 1)]: an array value is spliced in, any other value
    is kept. *)
Definition flatten1 (values : list Item) : list ref :=
  mbind (M := list) (λ v, match v with One r => [r] | Many rs => rs end) values.

(** Over an array, [flatMap] visits the elements in index order. *)
Definition __flatMap_array (xs : list ref) : list ref :=
  flatten1 (One <$> xs).

(** An object whose own enumerable properties all hold arrays, the
    properties in enumeration order (for string keys: creation order). *)
Definition ArraysObject := list (string * list ref).

(** Over an object, [flatMap] visits the own enumerable properties in
    enumeration order. *)
Definition __flatMap_object (o : ArraysObject) : list ref :=
  flatten1 ((λ kv, Many kv.2) <$> o).

(** [o.k] for a property the object may lack. *)
Definition getProp (k : string) (o : ArraysObject) : option (list ref) :=
  match list_find (λ kv : string * list ref, kv.1 = k) o with
  | Some (_, kv) => Some kv.2
  | None => None
  end.

(** [OrgBudgetsOverview]: the object
    [{ inUse: ..., underConstruction: ..., archived: ... }], written with
    its properties in the order of the initial value in the component. *)
Definition OrgBudgetsOverview (inUse underConstruction archived : list ref) : ArraysObject :=
  [("inUse", inUse); ("underConstruction", underConstruction); ("archived", archived)]%string.

(** *** SelectBudgetPageComponent *)

(** The value of [allBudgets]. *)
Record AllBudgets := {
  ab_overview : list ref;
  ab_budgets : list ref;
}.

(** The initial values given to [toSignal]. *)
Definition overview_initialValue : ArraysObject := OrgBudgetsOverview [] [] [].
Definition sharedBudgets_initialValue : list ref := [].

(** The computation of [allBudgets], from the current values of the
    [overview] and [sharedBudgets] signals; [None] is a value that is
    [undefined] or [null]. *)
Definition allBudgets (overview : option ArraysObject) (budgets : option (list ref))
  : Eff World AllBudgets :=
  match overview, budgets with
  | Some overview, Some budgets =>
      let flatOverview := __flatMap_object overview in
      let flatBudgets := __flatMap_array budgets in
      (trBudgets <- mapM (λ budget,
           updateBudget budget (λ b, set_endYear (startYear b + duration b - 1) b) ;;;
           ret budget) flatBudgets ;;
       ret {| ab_overview := flatOverview; ab_budgets := trBudgets |})%eff
  | _, _ => ret {| ab_overview := []; ab_budgets := [] |}
  end.

(** [canPromote] *)
Definition canPromote (record : ref) : Eff World (option bool) :=
  (r <- getRecord record ;; b <- getBudget (budget r) ;; ret (canBeActivated b))%eff.

Definition log (msg : JsString) : Eff World unit :=
  modify (with_logs (λ l, l ++ [msg])).

(** The observer [setActive] subscribes with. *)
Record Observer := {
  next : Eff World unit;
  error : JsString → Eff World unit;
}.

(** The [next] callback of [setActive], closed over [record] and [toSave]. *)
Definition onNext (record toSave : ref) : Eff World unit :=
  (updateRecord record (set_updating false) ;;;
   b <- getBudget toSave ;;
   log (lit "Updated Budget with id " ++ id b
          ++ lit ". Set as an active budget for this org."))%eff.

(** The [error] callback of [setActive], closed over [record]; [error] is
    the text [`${error}`] of what the store failed with. *)
Definition onError (record : ref) (error : JsString) : Eff World unit :=
  (updateRecord record (set_updating false) ;;;
   log (lit "Error updating budget: " ++ error))%eff.

(** [setActive], up to the subscription: the callbacks run when the store
    settles the update. *)
Definition setActive (record : ref) : Eff World Observer :=
  (r <- getRecord record ;;
   toSave <- ___cloneDeep (budget r) ;;
   updateBudget toSave delete_canBeActivated ;;;
   updateBudget toSave delete_access ;;;
   updateBudget toSave (set_status BudgetStatus.InUse) ;;;
   updateRecord record (set_updating true) ;;;
   modify (with_updates (λ u, u ++ [toSave])) ;;;
   ret {| next := onNext record toSave; error := onError record |})%eff.

(** How the store settles an update. *)
Inductive Settlement :=
  | Emits
  | Fails (error : JsString).

Definition settle (o : Observer) (s : Settlement) : Eff World unit :=
  match s with
  | Emits => next o
  | Fails e => error o e
  end.

(** *** BudgetTableComponent *)

(** [xs.find(p)] with a callback that reads the store. *)
Fixpoint find {A} (p : A → Eff World bool) (xs : list A) : Eff World (option A) :=
  match xs with
  | [] => ret None
  | x :: xs' => (hit <- p x ;; if hit : bool then ret (Some x) else find p xs')%eff
  end.

(** [o?.children]: [undefined] when [o] is. *)
Definition optChildren (o : option ref) : Eff World (option (list ref)) :=
  match o with
  | Some l => (r <- getRecord l ;; ret (Some (children r)))%eff
  | None => ret None
  end.

(** [children?.map((child) => child.budget)] *)
Definition optMapBudget (children : option (list ref)) : Eff World (option (list ref)) :=
  match children with
  | Some cs => (bs <- mapM (λ child, r <- getRecord child ;; ret (budget r)) cs ;; ret (Some bs))%eff
  | None => ret None
  end.

(** The callback of [overviewBudgets.find], closed over [parent]:
    [(budget) => budget.budget.id === parent.id]. *)
Definition sameId (parent budget : ref) : Eff World bool :=
  (r <- getRecord budget ;;
   b <- getBudget (Budgets.budget r) ;;
   p <- getBudget parent ;;
   ret (Js.strictEq (id b) (id p)))%eff.

(** [openChildBudgetDialog] *)
Definition openChildBudgetDialog (parent : ref) : Eff World unit :=
  (w <- get ;;
   found <- find (sameId parent) (overviewBudgets w) ;;
   children <- optChildren found ;;
   children <- optMapBudget children ;;
   modify (with_dialogs (λ d, d ++ [ {| component := "ChildBudgetsModalComponent";
                                       height := "fit-content";
                                       minWidth := "600px";
                                       data_parent := parent;
                                       data_budgets := children |} ])))%eff.

(** [translateStatus] *)
Definition translateStatus (status : Z) : JsString :=
  match status with
  | 1 => lit "BUDGET.STATUS.ACTIVE"
  | 0 => lit "BUDGET.STATUS.DESIGN"
  | 9 => lit "BUDGET.STATUS.NO-USE"
  | -1 => lit "BUDGET.STATUS.DELETED"
  | _ => lit ""
  end.

End Budgets.

(* ===================================================================== *)
(** ** The dialogs that take a parent budget *)
(* ===================================================================== *)

Module Dialogs.

(** What reaches a parameter [parent : Budget | false] at run time: a
    budget, [false], or no value. *)
Inductive Parent :=
  | PBudget (b : positive)
  | PFalse
  | PNull
  | PUndefined.

(** [parent != null]: the loose comparison holds for [null] and
    [undefined] only. *)
Definition notNull (parent : Parent) : bool :=
  match parent with
  | PNull | PUndefined => false
  | PBudget _ | PFalse => true
  end.

(** The configuration given to [MatDialog.open]; [None] is a property the
    object literal does not have. *)
Record MatDialogConfig := {
  panelClass : option string;
  height : option string;
  width : option string;
  data : Parent;
}.

(** A call of [MatDialog.open]. *)
Record Opened := {
  component : string;
  config : MatDialogConfig;
}.

(** [this._dialog.open(component, config)], on the dialogs opened so far. *)
Definition open (component : string) (config : MatDialogConfig) : Eff (list Opened) unit :=
  modify (λ d, d ++ [ {| component := component; config := config |} ]).

(** [BudgetTableComponent.openShareBudgetDialog] *)
Definition openShareBudgetDialog (parent : Parent) : Eff (list Opened) unit :=
  open "ShareBudgetModalComponent"
    {| panelClass := Some "no-pad-dialog"%string;
       height := None;
       width := Some "600px"%string;
       data := if notNull parent then parent else PFalse |}.

(** [BudgetTableComponent.openCloneBudgetDialog] *)
Definition openCloneBudgetDialog (parent : Parent) : Eff (list Opened) unit :=
  open "CreateBudgetModalComponent"
    {| panelClass := None;
       height := Some "fit-content"%string;
       width := Some "600px"%string;
       data := if notNull parent then parent else PFalse |}.

(** [SelectBudgetPageComponent.openDialog]; the callback subscribed to
    [afterClosed] is empty. *)
Definition openDialog (parent : Parent) : Eff (list Opened) unit :=
  open "CreateBudgetModalComponent"
    {| panelClass := None;
       height := Some "fit-content"%string;
       width := Some "600px"%string;
       data := if notNull parent then parent else PFalse |}.

End Dialogs.

(* ===================================================================== *)
(** ** Notions the properties are stated with, and example data *)
(* ===================================================================== *)

Module Notions.
Import Budgets.

(** What the callback of [flatBudgets.map] does to one budget. *)
Definition derive_endYear (b : Budget) : Budget :=
  set_endYear (startYear b + duration b - 1) b.

(** The budget objects after the callback ran over [bs]. *)
Definition annotated (m : gmap ref Budget) (bs : list ref) : gmap ref Budget :=
  foldl (λ m l, alter derive_endYear l m) m bs.

(** What [setActive] makes of a copy of the budget before it sends it. *)
Definition sanitized (b : Budget) : Budget :=
  set_status BudgetStatus.InUse (delete_access (delete_canBeActivated b)).

(** The configuration [openChildBudgetDialog] opens the dialog with. *)
Definition childrenDialog (parent : ref) (children : option (list ref)) : DialogOpen :=
  {| component := "ChildBudgetsModalComponent"; height := "fit-content";
     minWidth := "600px"; data_parent := parent; data_budgets := children |}.

(** A record of the overview that is an object with a budget whose id is
    not the id [i]. *)
Definition otherId (w : World) (i : JsString) (l : ref) : Prop :=
  ∃ r b, records w !! l = Some r ∧ budgets w !! budget r = Some b ∧ id b ≠ i.

End Notions.

Module Examples.
Import Budgets.

(** A repository that numbers the documents of a collection. *)
Definition example_newId : JsString → list AddNote.Notes → JsString :=
  λ _ docs, lit "note-" ++ [(48 + N.of_nat (length docs))%N].

(** No log output and an empty repository. *)
Definition no_tools : AddNote.Tools := {| AddNote.Logger := []; AddNote.collections := ∅ |}.

(** A budget of the examples: [startYear], [duration] and the [endYear]
    property it has so far. *)
Definition example_budget (i : JsString) (start dur : Z) (e : option Z) : Budget :=
  {| id := i; name := lit "Budget " ++ i; status := BudgetStatus.UnderConstruction;
     startYear := start; duration := dur; endYear := e; parentId := None;
     canBeActivated := Some true;
     access := Some {| owner := true; view := true; edit := true |} |}.

(** A store of the examples: budgets 1 to 4, the first two shared; records
    11 to 13, one per group of the overview, the first with a child. *)
Definition example_world : World :=
  {| budgets := {[ 1%positive := example_budget (lit "b1") 2020 3 None;
                   2%positive := example_budget (lit "b2") 2024 1 (Some 1999);
                   3%positive := example_budget (lit "b3") 2021 5 None;
                   4%positive := example_budget (lit "b4") 2022 2 None ]};
     records := {[ 11%positive := {| budget := 1%positive; children := [13%positive];
                                     updating := None |};
                   12%positive := {| budget := 3%positive; children := []; updating := None |};
                   13%positive := {| budget := 4%positive; children := []; updating := None |} ]};
     updates := []; logs := []; dialogs := [];
     overviewBudgets := [11; 12; 13]%positive |}.

End Examples.

Module MoreNotions.
Import Budgets Notions Examples.

(** The first line [execute] logs. *)
Definition firstLine (command : AddNote.AddNoteToBudgetCommand) : JsString :=
  lit "[AddNoteToBudgetHandler].execute: Adding note to budget "
    ++ AddNote.budgetId command ++ lit " for org " ++ AddNote.orgId command.

(** The error [execute] rejects a command with, if any. *)
Definition rejection (command : AddNote.AddNoteToBudgetCommand) : option JsString :=
  if bool_decide (Js.trim (AddNote.content command) = []) then Some (lit "Note content cannot be empty")
  else if bool_decide (Js.trim (AddNote.budgetId command) = []) then Some (lit "Budget ID cannot be empty")
  else if bool_decide (Js.trim (AddNote.orgId command) = []) then Some (lit "Organisation ID cannot be empty")
  else None.

(** The line the callbacks of [setActive] log when the store settles. *)
Definition settledLine (b : Budget) (s : Settlement) : JsString :=
  match s with
  | Emits => lit "Updated Budget with id " ++ id b
               ++ lit ". Set as an active budget for this org."
  | Fails e => lit "Error updating budget: " ++ e
  end.

(** The children [openChildBudgetDialog] finds for [parent], or what it
    throws. *)
Definition childrenFor (parent : ref) (w : World) : Exn + option (list ref) :=
  match (find (sameId parent) (overviewBudgets w) w).1 with
  | inl e => inl e
  | inr found =>
      match (optChildren found w).1 with
      | inl e => inl e
      | inr children => (optMapBudget children w).1
      end
  end.

(** The example store with one more record, whose budget is [undefined]. *)
Definition example_world_orphan : World :=
  with_records <[14%positive := {| budget := 9%positive; children := []; updating := None |}]>
    example_world.

(** The example store before the table has received an overview. *)
Definition example_world_no_overview : World :=
  {| budgets := budgets example_world; records := records example_world;
     updates := []; logs := []; dialogs := []; overviewBudgets := [] |}.

End MoreNotions.

(* ===================================================================== *)
(** ** Properties of the add-note handler *)
(* ===================================================================== *)

Module AddNoteProps.
Import AddNote Examples.

(** The test [!s || s.trim().length === 0] of the handler holds exactly
    when [s] is empty after trimming. *)
Lemma blank_check (s : JsString) :
  Js.not s || (length (Js.trim s) =? 0)%nat = bool_decide (Js.trim s = []).
Proof.
  destruct s as [|c s]; [reflexivity|].
  simpl Js.not. rewrite orb_false_l.
  destruct (Js.trim (c :: s)); reflexivity.
Qed.

(** A string of white space only is empty after trimming. *)
Lemma trimStart_white (s : JsString) :
  forallb Js.isWhiteSpace s = true → Js.trimStart s = [].
Proof.
  induction s as [|c s IH]; simpl; [done|].
  intros [Hc Hs]%andb_prop. rewrite Hc. auto.
Qed.

Example trim_hello : Js.trim (lit " hello ") = lit "hello".
Proof. reflexivity. Qed.

Example trim_keeps_inner_space :
  Js.trim (lit "  two words" ++ [9; 10; 160; 8232; 65279]%N) = lit "two words".
Proof. reflexivity. Qed.

Lemma trim_white (s : JsString) :
  forallb Js.isWhiteSpace s = true → Js.trim s = [].
Proof. intros H. unfold Js.trim. rewrite trimStart_white; done. Qed.

Ltac run_execute :=
  unfold execute, when;
  repeat (unfold bind at 1; unfold log at 1, modify at 1; cbv zeta);
  rewrite ?blank_check.

(** C1.  A command whose organisation ID, budget ID and content are all
    non-empty after trimming makes [execute] create exactly one record
    [{note: trimmed content}] in the collection at
    [orgs/{orgId}/budgets/{budgetId}/notes] (nothing else in the repository
    changes) and return the budget ID of the command, the trimmed content,
    and the identifier the repository assigned under both [id] and
    [noteId]. *)
Theorem execute_creates_one_note
    (newId : JsString → list Notes → JsString)
    (command : AddNoteToBudgetCommand) (t : Tools) :
  Js.trim (orgId command) ≠ [] →
  Js.trim (budgetId command) ≠ [] →
  Js.trim (content command) ≠ [] →
  let path := lit "orgs/" ++ orgId command ++ lit "/budgets/"
                ++ budgetId command ++ lit "/notes" in
  let assigned := newId path (documents path t) in
  ∃ t',
    execute newId command t
      = (inr {| r_id := Some assigned; r_noteId := Some assigned;
                r_budgetId := budgetId command;
                r_content := Js.trim (content command) |}, t')
    ∧ collections t'
      = <[path := documents path t
                    ++ [ {| id := Some assigned; note := Js.trim (content command) |} ]]>
          (collections t).
Proof.
  intros Horg Hbud Hcon path assigned.
  eexists. run_execute.
  rewrite !bool_decide_eq_false_2 by assumption.
  unfold ret, create, get, bind, modify. simpl.
  split; reflexivity.
Qed.

(** The example of the specification:
    [execute({orgId:"o1", budgetId:"b1", content:" hello "})]. *)
Lemma execute_creates_one_note_example :
  ∃ t',
    execute example_newId
      {| orgId := lit "o1"; budgetId := lit "b1"; content := lit " hello " |} no_tools
      = (inr {| r_id := Some (lit "note-0"); r_noteId := Some (lit "note-0");
                r_budgetId := lit "b1"; r_content := lit "hello" |}, t')
    ∧ collections t' !! lit "orgs/o1/budgets/b1/notes"
      = Some [ {| id := Some (lit "note-0"); note := lit "hello" |} ].
Proof.
  destruct (execute_creates_one_note example_newId
              {| orgId := lit "o1"; budgetId := lit "b1"; content := lit " hello " |}
              no_tools) as (t' & Hrun & Hcoll); [by vm_compute ..|].
  exists t'. split; [exact Hrun|].
  rewrite Hcoll. vm_compute. reflexivity.
Defined.

(** C2.  [execute] validates content, then budget ID, then organisation ID,
    and stops at the first field that is empty after trimming: the error
    names that field, and nothing is written to the repository.  A field
    of white space only is empty after trimming. *)
Theorem execute_validation_order
    (newId : JsString → list Notes → JsString)
    (command : AddNoteToBudgetCommand) (t : Tools) :
  (Js.trim (content command) = [] →
     ∃ t', execute newId command t
             = (inl (Error (lit "Note content cannot be empty")), t')
           ∧ collections t' = collections t)
  ∧ (Js.trim (content command) ≠ [] → Js.trim (budgetId command) = [] →
     ∃ t', execute newId command t
             = (inl (Error (lit "Budget ID cannot be empty")), t')
           ∧ collections t' = collections t)
  ∧ (Js.trim (content command) ≠ [] → Js.trim (budgetId command) ≠ [] →
     Js.trim (orgId command) = [] →
     ∃ t', execute newId command t
             = (inl (Error (lit "Organisation ID cannot be empty")), t')
           ∧ collections t' = collections t)
  ∧ (∀ s, forallb Js.isWhiteSpace s = true → Js.trim s = []).
Proof.
  split; [|split; [|split; [|exact trim_white]]].
  - intros Hcon. eexists. run_execute.
    rewrite bool_decide_eq_true_2 by assumption.
    unfold throw. split; reflexivity.
  - intros Hcon Hbud. eexists. run_execute.
    rewrite (bool_decide_eq_false_2 _ Hcon), (bool_decide_eq_true_2 _ Hbud).
    unfold throw, ret. split; reflexivity.
  - intros Hcon Hbud Horg. eexists. run_execute.
    rewrite (bool_decide_eq_false_2 _ Hcon), (bool_decide_eq_false_2 _ Hbud),
      (bool_decide_eq_true_2 _ Horg).
    unfold throw, ret. split; reflexivity.
Qed.

(** The examples of the specification: white-space-only content, also next
    to an empty organisation ID, is a content error; an empty organisation
    ID with the other fields filled is an organisation-ID error. *)
Lemma execute_validation_order_examples :
  (execute example_newId
     {| orgId := lit "o1"; budgetId := lit "b1"; content := lit "  " |} no_tools).1
    = inl (Error (lit "Note content cannot be empty"))
  ∧ (execute example_newId
       {| orgId := lit ""; budgetId := lit ""; content := lit "  " |} no_tools).1
    = inl (Error (lit "Note content cannot be empty"))
  ∧ (execute example_newId
       {| orgId := lit "o1"; budgetId := lit " "; content := lit "x" |} no_tools).1
    = inl (Error (lit "Budget ID cannot be empty"))
  ∧ (execute example_newId
       {| orgId := lit ""; budgetId := lit "b1"; content := lit "x" |} no_tools).1
    = inl (Error (lit "Organisation ID cannot be empty")).
Proof.
  split; [|split; [|split]].
  - destruct (execute_validation_order example_newId
      {| orgId := lit "o1"; budgetId := lit "b1"; content := lit "  " |} no_tools)
      as (H & _ & _ & _).
    destruct H as (t' & -> & _); [by vm_compute | reflexivity].
  - destruct (execute_validation_order example_newId
      {| orgId := lit ""; budgetId := lit ""; content := lit "  " |} no_tools)
      as (H & _ & _ & _).
    destruct H as (t' & -> & _); [by vm_compute | reflexivity].
  - destruct (execute_validation_order example_newId
      {| orgId := lit "o1"; budgetId := lit " "; content := lit "x" |} no_tools)
      as (_ & H & _ & _).
    destruct H as (t' & -> & _); [by vm_compute .. | reflexivity].
  - destruct (execute_validation_order example_newId
      {| orgId := lit ""; budgetId := lit "b1"; content := lit "x" |} no_tools)
      as (_ & _ & H & _).
    destruct H as (t' & -> & _); [by vm_compute .. | reflexivity].
Defined.

End AddNoteProps.

(* ===================================================================== *)
(** ** Properties of the aggregation [allBudgets] *)
(* ===================================================================== *)

Module AggregatorProps.
Import Budgets Notions Examples.

Lemma derive_endYear_idemp b : derive_endYear (derive_endYear b) = derive_endYear b.
Proof. reflexivity. Qed.

Lemma lookup_annotated bs : ∀ (m : gmap ref Budget) (l : ref),
  annotated m bs !! l
  = if decide (l ∈ bs) then derive_endYear <$> m !! l else m !! l.
Proof.
  induction bs as [|x bs IH]; intros m l.
  - rewrite decide_False; [done | set_solver].
  - unfold annotated in *. cbn [foldl]. rewrite IH, lookup_alter.
    destruct (decide (x = l)) as [->|Hne].
    + rewrite (decide_True (P := l ∈ l :: bs)) by set_solver.
      destruct (decide (l ∈ bs)); [|done].
      rewrite <- option_fmap_compose. by destruct (m !! l).
    + assert (l ∈ x :: bs ↔ l ∈ bs) as Hiff.
      { rewrite elem_of_cons. split; [intros [?|?]; [congruence|done] | tauto]. }
      destruct (decide (l ∈ bs)) as [Hin|Hin].
      * by rewrite decide_True by (by apply Hiff).
      * by rewrite decide_False by (by rewrite Hiff).
Qed.

Lemma flatMap_array_id (xs : list ref) : __flatMap_array xs = xs.
Proof.
  unfold __flatMap_array, flatten1.
  induction xs as [|x xs IH]; simpl; [done|]. f_equal. exact IH.
Qed.

(** Over an object, [flatMap] concatenates the property values in
    enumeration order. *)
Lemma flatMap_object_concat (o : ArraysObject) :
  __flatMap_object o = concat (o.*2).
Proof.
  unfold __flatMap_object, flatten1.
  induction o as [|[k v] o IH]; simpl; [done|]. f_equal. exact IH.
Qed.

Lemma mapM_cons {W A B} (f : A → Eff W B) x xs w :
  mapM f (x :: xs) w
  = match f x w with
    | (inr y, w') =>
        match mapM f xs w' with
        | (inr ys, w'') => (inr (y :: ys), w'')
        | (inl e, w'') => (inl e, w'')
        end
    | (inl e, w') => (inl e, w')
    end.
Proof.
  cbn [mapM]. unfold bind. destruct (f x w) as [[e|y] w']; [done|].
  by destruct (mapM f xs w') as [[e|ys] w''].
Qed.

Lemma updateBudget_run l f w b :
  budgets w !! l = Some b →
  updateBudget l f w = (inr tt, with_budgets <[l := f b]> w).
Proof. intros H. unfold updateBudget, bind, getBudget. by rewrite H. Qed.

Lemma with_budgets_id w : with_budgets (λ m, m) w = w.
Proof. by destruct w. Qed.

Lemma mapM_annotate bs : ∀ w,
  Forall (λ l, is_Some (budgets w !! l)) bs →
  mapM (λ budget,
          (updateBudget budget (λ b, set_endYear (startYear b + duration b - 1) b) ;;;
           ret budget)%eff) bs w
  = (inr bs, with_budgets (λ m, annotated m bs) w).
Proof.
  set (f := λ budget : ref, _).
  induction bs as [|x bs IH]; intros w Hall.
  - by rewrite with_budgets_id.
  - apply Forall_cons in Hall as [[b Hb] Hall].
    rewrite mapM_cons. unfold f at 1. unfold bind at 1.
    rewrite (updateBudget_run _ _ _ _ Hb). unfold ret at 1.
    rewrite IH.
    + f_equal. unfold with_budgets. simpl. f_equal. unfold annotated. simpl.
      f_equal. apply map_eq. intros i. rewrite lookup_alter, lookup_insert.
      case_decide; subst; [by rewrite Hb | done].
    + eapply Forall_impl; [exact Hall|]. intros l [b' Hl]. simpl.
      rewrite lookup_insert. case_decide; eauto.
Qed.

(** With both inputs present and every shared budget an object,
    [allBudgets] returns the flattened overview and the shared budgets, and
    has annotated each shared budget in the store. *)
Lemma allBudgets_run (overview : ArraysObject) (sharedBudgets : list ref) (w : World) :
  Forall (λ l, is_Some (budgets w !! l)) sharedBudgets →
  allBudgets (Some overview) (Some sharedBudgets) w
  = (inr {| ab_overview := __flatMap_object overview; ab_budgets := sharedBudgets |},
     with_budgets (λ m, annotated m sharedBudgets) w).
Proof.
  intros Hall. unfold allBudgets. rewrite flatMap_array_id.
  unfold bind. by rewrite mapM_annotate.
Qed.

(** A shared budget that is [undefined] makes the callback throw. *)
Lemma allBudgets_undefined_element :
  (allBudgets (Some overview_initialValue) (Some [7%positive])
     {| budgets := ∅; records := ∅; updates := []; logs := []; dialogs := [];
        overviewBudgets := [] |}).1 = inl TypeError.
Proof. reflexivity. Qed.




(** The initial values of the two signals are objects, not absent values:
    the guard lets them through.  With both still initial the result is
    empty all the same; with the shared budgets loaded and the overview
    still initial it holds the shared budgets. *)
Lemma allBudgets_initial_values :
  (allBudgets (Some overview_initialValue) (Some sharedBudgets_initialValue)
     example_world).1
    = inr {| ab_overview := []; ab_budgets := [] |}
  ∧ (allBudgets (Some overview_initialValue) (Some [1; 2]%positive) example_world).1
    = inr {| ab_overview := []; ab_budgets := [1; 2]%positive |}.
Proof. split; reflexivity. Qed.

(** C5.  When every shared budget is an object, [allBudgets] returns the
    shared budgets (none when an input is absent), and every budget [b] of
    the [budgets] part of its value, read after the aggregation, has an
    [endYear], the [startYear] and [duration] it had before, and, these
    two and their sum being safe integers,
    [b.endYear == b.startYear + b.duration - 1], whatever [endYear] it had
    before. *)
Theorem allBudgets_endYear
    (overview : option ArraysObject) (sharedBudgets : option (list ref)) (w : World) :
  (∀ l, l ∈ default [] sharedBudgets → is_Some (budgets w !! l)) →
  ∃ out w',
    allBudgets overview sharedBudgets w = (inr out, w')
    ∧ ab_budgets out = match overview with
                       | Some _ => default [] sharedBudgets
                       | None => []
                       end
    ∧ ∀ l, l ∈ ab_budgets out →
        ∃ b0 b, budgets w !! l = Some b0 ∧ budgets w' !! l = Some b
                ∧ startYear b = startYear b0 ∧ duration b = duration b0
                ∧ is_Some (endYear b)
                ∧ (Js.isSafeInteger (startYear b) = true →
                   Js.isSafeInteger (duration b) = true →
                   Js.isSafeInteger (startYear b + duration b) = true →
                   endYear b = Some (startYear b + duration b - 1)).
Proof.
  intros Hall.
  destruct overview as [ov|], sharedBudgets as [bs|];
    try (eexists _, _; split; [reflexivity|]; split; [reflexivity|];
         simpl; intros l Hl; by apply elem_of_nil in Hl).
  simpl in Hall. eexists _, _. split.
  - apply allBudgets_run. by apply Forall_forall.
  - split; [reflexivity|]. simpl. intros l Hl. destruct (Hall l Hl) as [b Hb].
    exists b, (derive_endYear b). split; [exact Hb|].
    split; [by rewrite lookup_annotated, decide_True, Hb|].
    split; [done|]. split; [done|]. split; [by eexists | done].
Qed.

(** Budget 2 had [endYear] 1999 and gets 2024; budget 1 had none and gets
    2022. *)
Lemma allBudgets_endYear_example :
  ∃ out w',
    allBudgets (Some overview_initialValue) (Some [1; 2]%positive) example_world
      = (inr out, w')
    ∧ ab_budgets out = [1; 2]%positive
    ∧ endYear <$> budgets example_world !! 2%positive = Some (Some 1999)
    ∧ endYear <$> budgets w' !! 2%positive = Some (Some 2024)
    ∧ endYear <$> budgets w' !! 1%positive = Some (Some 2022).
Proof.
  destruct (allBudgets_endYear (Some overview_initialValue) (Some [1; 2]%positive)
              example_world) as (out & w' & Hrun & Hout & Hyears).
  { intros l Hl. simpl in Hl.
    apply elem_of_cons in Hl as [-> | Hl]; [by eexists|].
    apply elem_of_cons in Hl as [-> | Hl]; [by eexists|].
    by apply elem_of_nil in Hl. }
  simpl in Hout.
  exists out, w'. split; [exact Hrun|]. split; [exact Hout|]. split; [reflexivity|].
  rewrite Hout in Hyears. split.
  - destruct (Hyears 2%positive) as (b0 & b & H0 & -> & Hs & Hd & _ & He).
    { apply elem_of_cons. right. apply elem_of_cons. by left. }
    injection H0 as <-. simpl. rewrite He; rewrite ?Hs, ?Hd; reflexivity.
  - destruct (Hyears 1%positive) as (b0 & b & H0 & -> & Hs & Hd & _ & He).
    { apply elem_of_cons. by left. }
    injection H0 as <-. simpl. rewrite He; rewrite ?Hs, ?Hd; reflexivity.
Defined.

(** C6, as stated, fails: [flatMap] visits the groups in the enumeration
    order of the overview object.  An overview whose properties were
    created in the order [archived], [inUse], [underConstruction] is
    flattened with the archived records first. *)
Lemma allBudgets_overview_order_counterexample :
  let overview :=
    [("archived", [13]); ("inUse", [11]); ("underConstruction", [12])]%string%positive in
  (getProp "inUse" overview, getProp "underConstruction" overview,
   getProp "archived" overview)
    = (Some [11%positive], Some [12%positive], Some [13%positive])
  ∧ (allBudgets (Some overview) (Some []) example_world).1
    = inr {| ab_overview := [13; 11; 12]%positive; ab_budgets := [] |}
  ∧ [13; 11; 12]%positive ≠ [11%positive] ++ [12%positive] ++ [13%positive].
Proof. repeat split; done. Qed.

(** C6, amended.  For an overview object whose properties are, in
    enumeration order, [inUse], [underConstruction] and [archived] (as in
    the initial value of the signal), the [overview] part of the value of
    [allBudgets] is the three groups concatenated in that order, each in
    its own order. *)
Theorem allBudgets_overview_order
    (overview : ArraysObject) (inUse underConstruction archived sharedBudgets : list ref)
    (w : World) :
  overview.*1 = ["inUse"; "underConstruction"; "archived"]%string →
  getProp "inUse" overview = Some inUse →
  getProp "underConstruction" overview = Some underConstruction →
  getProp "archived" overview = Some archived →
  Forall (λ l, is_Some (budgets w !! l)) sharedBudgets →
  ∃ out w',
    allBudgets (Some overview) (Some sharedBudgets) w = (inr out, w')
    ∧ ab_overview out = inUse ++ underConstruction ++ archived.
Proof.
  intros Hkeys Hi Hu Ha Hall. eexists _, _. split; [by apply allBudgets_run|].
  simpl. rewrite flatMap_object_concat.
  destruct overview as [|[k1 v1] [|[k2 v2] [|[k3 v3] [|? ?]]]]; try discriminate Hkeys.
  simpl in Hkeys. injection Hkeys as -> -> ->.
  vm_compute in Hi, Hu, Ha. injection Hi as ->. injection Hu as ->. injection Ha as ->.
  simpl. by rewrite app_nil_r.
Qed.

Lemma allBudgets_overview_order_example :
  ∃ out w',
    allBudgets (Some (OrgBudgetsOverview [11; 13] [12] [13])%positive)
      (Some [1; 2]%positive) example_world = (inr out, w')
    ∧ ab_overview out = [11; 13]%positive ++ [12%positive] ++ [13%positive].
Proof.
  apply (allBudgets_overview_order (OrgBudgetsOverview [11; 13] [12] [13])%positive).
  - reflexivity.
  - reflexivity.
  - reflexivity.
  - reflexivity.
  - repeat constructor; by eexists.
Defined.

(** C7, as stated, fails: the callback of [flatBudgets.map] assigns
    [endYear] on the budget object it is given, which is the element of the
    input array.  After the aggregation the shared budget 1 has an
    [endYear] it did not have. *)
Lemma allBudgets_mutates_input_counterexample :
  let w' := (allBudgets (Some overview_initialValue) (Some [1%positive]) example_world).2 in
  endYear <$> budgets example_world !! 1%positive = Some None
  ∧ endYear <$> budgets w' !! 1%positive = Some (Some 2022)
  ∧ budgets w' !! 1%positive ≠ budgets example_world !! 1%positive.
Proof. repeat split; done. Qed.

(** C7, amended.  The aggregation returns the shared budgets, the same
    objects in the same order.  It changes no record object and no budget
    that is not an element of the shared budgets.  On every element of the
    shared budgets, also one that a record of the overview refers to, it
    assigns [endYear] in place ([startYear + duration - 1] when these two
    and their sum are safe integers) and changes no other field. *)
Theorem allBudgets_frame
    (overview : ArraysObject) (sharedBudgets : list ref) (w : World) :
  Forall (λ l, is_Some (budgets w !! l)) sharedBudgets →
  ∃ out w',
    allBudgets (Some overview) (Some sharedBudgets) w = (inr out, w')
    ∧ ab_budgets out = sharedBudgets
    ∧ records w' = records w
    ∧ (∀ l, l ∉ sharedBudgets → budgets w' !! l = budgets w !! l)
    ∧ (∀ l b, budgets w !! l = Some b →
         ∃ b', budgets w' !! l = Some b'
               ∧ id b' = id b ∧ name b' = name b ∧ status b' = status b
               ∧ startYear b' = startYear b ∧ duration b' = duration b
               ∧ parentId b' = parentId b
               ∧ canBeActivated b' = canBeActivated b ∧ access b' = access b)
    ∧ (∀ l b, l ∈ sharedBudgets → budgets w !! l = Some b →
         ∃ b', budgets w' !! l = Some b'
               ∧ is_Some (endYear b')
               ∧ (Js.isSafeInteger (startYear b) = true →
                  Js.isSafeInteger (duration b) = true →
                  Js.isSafeInteger (startYear b + duration b) = true →
                  endYear b' = Some (startYear b + duration b - 1)))
    ∧ (∀ r rec b, records w !! r = Some rec → budget rec ∈ sharedBudgets →
         budgets w !! budget rec = Some b →
         ∃ b', records w' !! r = Some rec
               ∧ budgets w' !! budget rec = Some b'
               ∧ is_Some (endYear b')).
Proof.
  intros Hall. eexists _, _. split; [by apply allBudgets_run|].
  simpl. split; [done|]. split; [done|]. split; [|split; [|split]].
  - intros l Hl. by rewrite lookup_annotated, decide_False.
  - intros l b Hb. rewrite lookup_annotated, Hb.
    destruct (decide (l ∈ sharedBudgets)); eexists; (split; [reflexivity|]); done.
  - intros l b Hl Hb. rewrite lookup_annotated, decide_True, Hb by done.
    eexists. split; [reflexivity|]. split; [by eexists | done].
  - intros r rec b Hr Hl Hb. rewrite lookup_annotated, decide_True, Hb by done.
    eexists. split; [exact Hr|]. split; [reflexivity | by eexists].
Qed.

(** In the example store the shared budget 1 is also the budget of record
    11: the record is as it was, and its budget, read through it, has got
    an [endYear]; budget 3 is not shared and is as it was. *)
Lemma allBudgets_frame_example :
  ∃ out w',
    allBudgets (Some (OrgBudgetsOverview [11] [12] [13])%positive)
      (Some [1; 2]%positive) example_world = (inr out, w')
    ∧ ab_budgets out = [1; 2]%positive
    ∧ records w' = records example_world
    ∧ budgets w' !! 3%positive = budgets example_world !! 3%positive
    ∧ name <$> budgets w' !! 2%positive = name <$> budgets example_world !! 2%positive
    ∧ endYear <$> budgets example_world !! 1%positive = Some None
    ∧ endYear <$> budgets w' !! 1%positive = Some (Some 2022)
    ∧ budget <$> records w' !! 11%positive = Some 1%positive.
Proof.
  destruct (allBudgets_frame (OrgBudgetsOverview [11] [12] [13])%positive
              [1; 2]%positive example_world)
    as (out & w' & Hrun & Hout & Hrec & Hother & Hfields & Hshared & _).
  { repeat constructor; by eexists. }
  exists out, w'. split; [exact Hrun|]. split; [exact Hout|]. split; [exact Hrec|].
  split; [|split; [|split; [reflexivity|split]]].
  - apply Hother. rewrite !elem_of_cons, elem_of_nil. intros [?|[?|[]]]; discriminate.
  - destruct (Hfields 2%positive _ eq_refl) as (b' & -> & _ & Hname & _).
    simpl. by rewrite Hname.
  - destruct (Hshared 1%positive (example_budget (lit "b1") 2020 3 None))
      as (b' & -> & _ & He); [apply elem_of_cons; by left | reflexivity |].
    simpl. by rewrite He.
  - by rewrite Hrec.
Defined.

End AggregatorProps.

(* ===================================================================== *)
(** ** Properties of the promotion [setActive] *)
(* ===================================================================== *)

Module PromotionProps.
Import Budgets Notions Examples.
Import AggregatorProps.

Lemma updateRecord_run l f w r :
  records w !! l = Some r →
  updateRecord l f w = (inr tt, with_records <[l := f r]> w).
Proof. intros H. unfold updateRecord, bind, getRecord. by rewrite H. Qed.

Lemma cloneDeep_run l b w :
  budgets w !! l = Some b →
  ___cloneDeep l w
  = (inr (fresh (dom (budgets w))), with_budgets <[fresh (dom (budgets w)) := b]> w).
Proof. intros H. unfold ___cloneDeep. by rewrite H. Qed.

(** The reference of a clone designated no object before. *)
Lemma fresh_unused (m : gmap ref Budget) : m !! fresh (dom m) = None.
Proof. apply not_elem_of_dom, is_fresh. Qed.

Lemma setActive_run record r b w :
  records w !! record = Some r →
  budgets w !! budget r = Some b →
  let toSave := fresh (dom (budgets w)) in
  setActive record w
  = (inr {| next := onNext record toSave; error := onError record |},
     with_updates (λ u, u ++ [toSave])
       (with_records <[record := set_updating true r]>
          (with_budgets <[toSave := sanitized b]> w))).
Proof.
  intros Hr Hb toSave. unfold setActive.
  unfold bind at 1. unfold getRecord. rewrite Hr.
  unfold bind at 1. rewrite (cloneDeep_run _ _ _ Hb). fold toSave.
  do 3 (unfold bind at 1; erewrite updateBudget_run by (simpl; apply lookup_insert_eq)).
  unfold bind at 1. erewrite updateRecord_run by (simpl; exact Hr).
  unfold bind, modify, ret. f_equal.
  unfold with_updates, with_records, with_budgets. simpl.
  f_equal. by rewrite !insert_insert_eq.
Qed.

Lemma onNext_run record toSave w r b :
  records w !! record = Some r →
  budgets w !! toSave = Some b →
  onNext record toSave w
  = (inr tt,
     with_logs (λ l, l ++ [lit "Updated Budget with id " ++ id b
                             ++ lit ". Set as an active budget for this org."])
       (with_records <[record := set_updating false r]> w)).
Proof.
  intros Hr Hb. unfold onNext. unfold bind at 1.
  rewrite (updateRecord_run _ _ _ _ Hr). unfold bind, getBudget. simpl.
  by rewrite Hb.
Qed.

Lemma onError_run record e w r :
  records w !! record = Some r →
  onError record e w
  = (inr tt,
     with_logs (λ l, l ++ [lit "Error updating budget: " ++ e])
       (with_records <[record := set_updating false r]> w)).
Proof.
  intros Hr. unfold onError, bind. by rewrite (updateRecord_run _ _ _ _ Hr).
Qed.

(** C8.  For a record and its budget [b], [setActive] hands the store a
    new object that has no [canBeActivated] and no [access], has status
    [InUse] (1) and is [b] in every other field; the budget object of the
    record, and every other budget, is as it was. *)
Theorem setActive_sends_sanitized_copy (record : ref) (r : BudgetRecord) (b : Budget) (w : World) :
  records w !! record = Some r →
  budgets w !! budget r = Some b →
  ∃ obs w1 toSave saved,
    setActive record w = (inr obs, w1)
    ∧ updates w1 = updates w ++ [toSave]
    ∧ budgets w !! toSave = None
    ∧ budgets w1 !! toSave = Some saved
    ∧ canBeActivated saved = None ∧ access saved = None ∧ status saved = 1
    ∧ id saved = id b ∧ name saved = name b
    ∧ startYear saved = startYear b ∧ duration saved = duration b
    ∧ endYear saved = endYear b ∧ parentId saved = parentId b
    ∧ budgets w1 !! budget r = Some b
    ∧ ∀ l, l ≠ toSave → budgets w1 !! l = budgets w !! l.
Proof.
  intros Hr Hb.
  exists {| next := onNext record (fresh (dom (budgets w))); error := onError record |}.
  eexists. exists (fresh (dom (budgets w))), (sanitized b).
  split; [exact (setActive_run _ _ _ _ Hr Hb)|].
  pose proof (fresh_unused (budgets w)) as Hfresh.
  simpl. repeat split; try done.
  - apply lookup_insert_eq.
  - rewrite lookup_insert_ne; [done|]. intros Heq. congruence.
  - intros l Hl. by rewrite lookup_insert_ne.
Qed.

(** Promoting the record 11 of the example store: budget 1 keeps
    [canBeActivated] and [access], the object sent has neither. *)
Lemma setActive_sends_sanitized_copy_example :
  ∃ obs w1 toSave saved,
    setActive 11%positive example_world = (inr obs, w1)
    ∧ updates w1 = [toSave]
    ∧ budgets w1 !! toSave = Some saved
    ∧ (canBeActivated saved, access saved, status saved, id saved)
      = (None, None, 1, lit "b1")
    ∧ budgets w1 !! 1%positive = Some (example_budget (lit "b1") 2020 3 None).
Proof.
  destruct (setActive_sends_sanitized_copy 11%positive
              {| budget := 1%positive; children := [13%positive]; updating := None |}
              (example_budget (lit "b1") 2020 3 None) example_world)
    as (obs & w1 & toSave & saved & Hrun & Hupd & _ & Hsaved & Hc & Ha & Hs & Hid & _ & _
        & _ & _ & _ & Horig & _); [reflexivity | reflexivity |].
  exists obs, w1, toSave, saved. repeat split; try assumption.
  by rewrite Hc, Ha, Hs, Hid.
Defined.

(** C9.  [setActive] on a record returns normally with the record's
    [updating] set to [true] and the update requested; whenever the store
    settles the request, with a value or with an error, the callback
    returns normally and leaves [updating] set to [false]. *)
Theorem setActive_updating_flag (record : ref) (r : BudgetRecord) (b : Budget) (w : World) :
  records w !! record = Some r →
  budgets w !! budget r = Some b →
  ∃ obs w1 toSave,
    setActive record w = (inr obs, w1)
    ∧ updates w1 = updates w ++ [toSave]
    ∧ is_Some (budgets w1 !! toSave)
    ∧ updating <$> records w1 !! record = Some (Some true)
    ∧ ∀ (s : Settlement) (w2 : World),
        is_Some (records w2 !! record) →
        is_Some (budgets w2 !! toSave) →
        ∃ w3, settle obs s w2 = (inr tt, w3)
              ∧ updating <$> records w3 !! record = Some (Some false).
Proof.
  intros Hr Hb.
  exists {| next := onNext record (fresh (dom (budgets w))); error := onError record |}.
  eexists. exists (fresh (dom (budgets w))).
  split; [exact (setActive_run _ _ _ _ Hr Hb)|].
  simpl. repeat split.
  - rewrite lookup_insert_eq. by eexists.
  - by rewrite lookup_insert_eq.
  - intros s w2 [r2 Hr2] [b2 Hb2]. destruct s as [|e]; simpl.
    + rewrite (onNext_run _ _ _ _ _ Hr2 Hb2). eexists. split; [reflexivity|].
      simpl. by rewrite lookup_insert_eq.
    + rewrite (onError_run _ _ _ _ Hr2). eexists. split; [reflexivity|].
      simpl. by rewrite lookup_insert_eq.
Qed.

(** Promoting the record 12 of the example store, the store then settling
    at once, either way. *)
Lemma setActive_updating_flag_example :
  ∃ obs w1,
    setActive 12%positive example_world = (inr obs, w1)
    ∧ updating <$> records w1 !! 12%positive = Some (Some true)
    ∧ (∃ w3, settle obs Emits w1 = (inr tt, w3)
             ∧ updating <$> records w3 !! 12%positive = Some (Some false))
    ∧ (∃ w3, settle obs (Fails (lit "permission-denied")) w1 = (inr tt, w3)
             ∧ updating <$> records w3 !! 12%positive = Some (Some false)).
Proof.
  destruct (setActive_updating_flag 12%positive
              {| budget := 3%positive; children := []; updating := None |}
              (example_budget (lit "b3") 2021 5 None) example_world)
    as (obs & w1 & toSave & Hrun & _ & Hsaved & Hflag & Hsettle);
    [reflexivity | reflexivity |].
  assert (is_Some (records w1 !! 12%positive)) as Hrec.
  { destruct (records w1 !! 12%positive); [by eexists | discriminate Hflag]. }
  exists obs, w1. repeat split; try assumption.
  - exact (Hsettle Emits w1 Hrec Hsaved).
  - exact (Hsettle (Fails (lit "permission-denied")) w1 Hrec Hsaved).
Defined.

End PromotionProps.

(* ===================================================================== *)
(** ** Properties of the budget table *)
(* ===================================================================== *)

Module TableProps.
Import Budgets Notions Examples.
Import AggregatorProps.

Lemma sameId_run parent l w r b p :
  records w !! l = Some r →
  budgets w !! budget r = Some b →
  budgets w !! parent = Some p →
  sameId parent l w = (inr (Js.strictEq (id b) (id p)), w).
Proof.
  intros Hr Hb Hp. unfold sameId, bind, getRecord, getBudget.
  by rewrite Hr, Hb, Hp.
Qed.

Lemma find_none {A} (f : A → Eff World bool) xs w :
  Forall (λ x, f x w = (inr false, w)) xs →
  find f xs w = (inr None, w).
Proof.
  induction 1 as [|x xs Hx _ IH]; [done|].
  cbn [find]. unfold bind. by rewrite Hx.
Qed.

Lemma find_first {A} (f : A → Eff World bool) pre x post w :
  Forall (λ y, f y w = (inr false, w)) pre →
  f x w = (inr true, w) →
  find f (pre ++ x :: post) w = (inr (Some x), w).
Proof.
  intros Hpre Hx. induction Hpre as [|y pre Hy _ IH]; cbn [app find]; unfold bind.
  - by rewrite Hx.
  - by rewrite Hy.
Qed.

Lemma mapM_child_budget cs : ∀ bs w,
  Forall2 (λ c cb, ∃ rc, records w !! c = Some rc ∧ budget rc = cb) cs bs →
  mapM (λ child, (r <- getRecord child ;; ret (budget r))%eff) cs w = (inr bs, w).
Proof.
  set (f := λ child : ref, _).
  induction cs as [|c cs IH]; intros bs w H.
  - by apply Forall2_nil_inv_l in H as ->.
  - apply Forall2_cons_inv_l in H as (cb & bs' & (rc & Hrc & <-) & H & ->).
    rewrite mapM_cons. unfold f at 1. unfold bind at 1, getRecord.
    rewrite Hrc. unfold ret at 1. by rewrite (IH _ _ H).
Qed.

Lemma otherId_sameId parent p w l :
  budgets w !! parent = Some p →
  otherId w (id p) l →
  sameId parent l w = (inr false, w).
Proof.
  intros Hp (r & b & Hr & Hb & Hne).
  rewrite (sameId_run _ _ _ _ _ _ Hr Hb Hp). unfold Js.strictEq.
  by rewrite bool_decide_eq_false_2.
Qed.

(** C10.  [openChildBudgetDialog(parent)] takes the first record of
    [overviewBudgets] whose budget has the id of [parent] and opens the
    children dialog with [parent] and the budgets of that record's
    children; when no record has that id it returns normally all the same
    and opens the dialog with [undefined] for the children. *)
Theorem openChildBudgetDialog_children (parent : ref) (p : Budget) (w : World) :
  budgets w !! parent = Some p →
  ((∀ l, l ∈ overviewBudgets w → otherId w (id p) l) →
     openChildBudgetDialog parent w
     = (inr tt, with_dialogs (λ d, d ++ [childrenDialog parent None]) w))
  ∧ (∀ pre l post r b cs,
       overviewBudgets w = pre ++ l :: post →
       (∀ x, x ∈ pre → otherId w (id p) x) →
       records w !! l = Some r →
       budgets w !! budget r = Some b →
       id b = id p →
       Forall2 (λ c cb, ∃ rc, records w !! c = Some rc ∧ budget rc = cb) (children r) cs →
       openChildBudgetDialog parent w
       = (inr tt, with_dialogs (λ d, d ++ [childrenDialog parent (Some cs)]) w)).
Proof.
  intros Hp. split.
  - intros Hmiss. unfold openChildBudgetDialog.
    unfold bind at 1. unfold get. unfold bind at 1.
    rewrite find_none; [reflexivity|].
    apply Forall_forall. intros l Hl. by apply otherId_sameId with p, Hmiss.
  - intros pre l post r b cs Hov Hpre Hr Hb Hid Hcs. unfold openChildBudgetDialog.
    unfold bind at 1. unfold get. unfold bind at 1. rewrite Hov.
    rewrite find_first.
    + unfold bind at 1. unfold optChildren, bind at 1, getRecord. rewrite Hr.
      unfold ret at 1. unfold bind at 1. unfold optMapBudget, bind at 1.
      by rewrite (mapM_child_budget _ _ _ Hcs).
    + apply Forall_forall. intros x Hx. by apply otherId_sameId with p, Hpre.
    + rewrite (sameId_run _ _ _ _ _ _ Hr Hb Hp). unfold Js.strictEq.
      by rewrite bool_decide_eq_true_2.
Qed.

(** In the example store the overview caches the records 11, 12 and 13.
    For budget 1 the dialog gets the budget of record 11's child; for the
    shared budget 2, which no record of the overview has, it gets
    [undefined]. *)
Lemma openChildBudgetDialog_children_examples :
  openChildBudgetDialog 1%positive example_world
    = (inr tt, with_dialogs (λ d, d ++ [childrenDialog 1%positive (Some [4%positive])])
                 example_world)
  ∧ openChildBudgetDialog 2%positive example_world
    = (inr tt, with_dialogs (λ d, d ++ [childrenDialog 2%positive None]) example_world).
Proof.
  split.
  - destruct (openChildBudgetDialog_children 1%positive
                (example_budget (lit "b1") 2020 3 None) example_world eq_refl) as [_ Hhit].
    apply (Hhit [] 11%positive [12; 13]%positive
             {| budget := 1%positive; children := [13%positive]; updating := None |}
             (example_budget (lit "b1") 2020 3 None)); try reflexivity.
    + intros x Hx. by apply elem_of_nil in Hx.
    + repeat constructor. by eexists.
  - destruct (openChildBudgetDialog_children 2%positive
                (example_budget (lit "b2") 2024 1 (Some 1999)) example_world eq_refl)
      as [Hmiss _].
    apply Hmiss. intros l Hl. simpl in Hl.
    repeat (apply elem_of_cons in Hl as [-> | Hl];
            [do 2 eexists; split; [reflexivity|]; split; [reflexivity|]; by vm_compute|]).
    by apply elem_of_nil in Hl.
Defined.

(** C3, as stated, fails: [translateStatus] returns the translation keys
    of the status labels, not the labels. *)
Lemma translateStatus_counterexample :
  translateStatus 1 = lit "BUDGET.STATUS.ACTIVE"
  ∧ translateStatus 1 ≠ lit "active".
Proof. split; [reflexivity | by vm_compute]. Qed.

(** C3, amended.  [translateStatus] maps 1 to ["BUDGET.STATUS.ACTIVE"], 0
    to ["BUDGET.STATUS.DESIGN"], 9 to ["BUDGET.STATUS.NO-USE"], -1 to
    ["BUDGET.STATUS.DELETED"], and every other integer to the empty
    string. *)
Theorem translateStatus_keys :
  translateStatus 1 = lit "BUDGET.STATUS.ACTIVE"
  ∧ translateStatus 0 = lit "BUDGET.STATUS.DESIGN"
  ∧ translateStatus 9 = lit "BUDGET.STATUS.NO-USE"
  ∧ translateStatus (-1) = lit "BUDGET.STATUS.DELETED"
  ∧ ∀ status : Z,
      status ≠ 1 → status ≠ 0 → status ≠ 9 → status ≠ -1 →
      translateStatus status = lit "".
Proof.
  repeat split.
  intros status H1 H0 H9 Hm1.
  destruct status as [|q|q]; [done | |];
    repeat (destruct q as [q|q|]; try reflexivity; try done).
Qed.

Lemma translateStatus_keys_example : translateStatus 42 = lit "".
Proof.
  destruct translateStatus_keys as (_ & _ & _ & _ & Hother).
  apply Hother; discriminate.
Defined.

End TableProps.

(* ===================================================================== *)
(** ** More on the add-note handler *)
(* ===================================================================== *)

Module AddNoteMore.
Import AddNote Examples MoreNotions AddNoteProps.

Section Run.
Variable newId : JsString → list Notes → JsString.

Lemma execute_rejected command t msg :
  rejection command = Some msg →
  ∃ line,
    execute newId command t
    = (inl (Error msg),
       {| Logger := Logger t ++ [firstLine command; line]; collections := collections t |}).
Proof.
  unfold rejection. intros H.
  repeat case_bool_decide; try discriminate H; injection H as <-;
    eexists; run_execute; repeat case_bool_decide; try contradiction;
    unfold throw, ret; simpl; rewrite <- ?app_assoc; reflexivity.
Qed.

Lemma execute_accepted command t :
  rejection command = None →
  let path := BUDGET_NOTES_REPO (orgId command) (budgetId command) in
  let created := {| id := Some (newId path (documents path t));
                    note := Js.trim (content command) |} in
  ∃ line,
    execute newId command t
    = (inr {| r_id := id created; r_noteId := id created;
              r_budgetId := budgetId command; r_content := Js.trim (content command) |},
       {| Logger := Logger t ++ [firstLine command;
                                 lit "[AddNoteToBudgetHandler].execute: Creating note in repository";
                                 line];
          collections := <[path := documents path t ++ [created]]> (collections t) |}).
Proof.
  intros H path created. unfold rejection in H. eexists. run_execute.
  repeat case_bool_decide; try discriminate H.
  unfold ret, create, get, bind, modify. simpl. rewrite <- !app_assoc. reflexivity.
Qed.

End Run.

Lemma rejection_None command :
  rejection command = None
  ↔ Js.trim (content command) ≠ [] ∧ Js.trim (budgetId command) ≠ []
    ∧ Js.trim (orgId command) ≠ [].
Proof.
  unfold rejection. repeat case_bool_decide; split; try done; intros (? & ? & ?); done.
Qed.

(** *** What [trim] removes *)

Lemma trimStart_decomp (s : JsString) :
  ∃ pre, s = pre ++ Js.trimStart s ∧ forallb Js.isWhiteSpace pre = true.
Proof.
  induction s as [|c s (pre & Hs & Hpre)]; [by exists []|].
  simpl. destruct (Js.isWhiteSpace c) eqn:Hc.
  - exists (c :: pre). simpl. rewrite Hc, Hpre. by rewrite <- Hs.
  - by exists [].
Qed.

Lemma trimStart_head (s : JsString) c rest :
  Js.trimStart s = c :: rest → Js.isWhiteSpace c = false.
Proof.
  induction s as [|d s IH]; simpl; [done|].
  destruct (Js.isWhiteSpace d) eqn:Hd; [done|]. by intros [= <- _].
Qed.

Lemma trimStart_id c (rest : JsString) :
  Js.isWhiteSpace c = false → Js.trimStart (c :: rest) = c :: rest.
Proof. intros H. simpl. by rewrite H. Qed.

Lemma forallb_reverse (f : N → bool) (l : list N) :
  forallb f (reverse l) = forallb f l.
Proof.
  induction l as [|x l IH]; [done|].
  rewrite reverse_cons, forallb_app, IH. simpl. rewrite andb_true_r. apply andb_comm.
Qed.

Lemma trimEnd_decomp (s : JsString) :
  ∃ post, s = Js.trimEnd s ++ post ∧ forallb Js.isWhiteSpace post = true.
Proof.
  unfold Js.trimEnd. destruct (trimStart_decomp (reverse s)) as (pre & Hs & Hpre).
  exists (reverse pre). split; [|by rewrite forallb_reverse].
  rewrite <- reverse_app, <- Hs. by rewrite reverse_involutive.
Qed.

Lemma trimEnd_last (s : JsString) init c :
  Js.trimEnd s = init ++ [c] → Js.isWhiteSpace c = false.
Proof.
  unfold Js.trimEnd. intros H. apply (f_equal reverse) in H.
  rewrite reverse_involutive, reverse_app in H. by apply trimStart_head in H.
Qed.

Lemma trimEnd_id (s : JsString) c :
  Js.isWhiteSpace c = false → Js.trimEnd (s ++ [c]) = s ++ [c].
Proof.
  intros H. unfold Js.trimEnd. rewrite reverse_app. simpl.
  change (reverse [c]) with [c]. simpl. rewrite H.
  by rewrite reverse_cons, reverse_involutive.
Qed.

Lemma trim_head (s : JsString) c rest :
  Js.trim s = c :: rest → Js.isWhiteSpace c = false.
Proof.
  unfold Js.trim. intros H.
  destruct (trimEnd_decomp (Js.trimStart s)) as (post & Hs & _).
  rewrite H in Hs. by apply trimStart_head in Hs.
Qed.

Lemma trim_last (s : JsString) init c :
  Js.trim s = init ++ [c] → Js.isWhiteSpace c = false.
Proof. apply trimEnd_last. Qed.

Lemma trim_decomp (s : JsString) :
  ∃ pre post, s = pre ++ Js.trim s ++ post
              ∧ forallb Js.isWhiteSpace pre = true ∧ forallb Js.isWhiteSpace post = true.
Proof.
  destruct (trimStart_decomp s) as (pre & Hs & Hpre).
  destruct (trimEnd_decomp (Js.trimStart s)) as (post & Hu & Hpost).
  exists pre, post. unfold Js.trim. by rewrite <- Hu.
Qed.

Lemma trim_idemp (s : JsString) : Js.trim (Js.trim s) = Js.trim s.
Proof.
  destruct (Js.trim s) as [|c rest] eqn:H; [done|].
  pose proof (trim_head _ _ _ H) as Hc.
  unfold Js.trim at 1. rewrite (trimStart_id _ _ Hc).
  destruct (exists_last (l := c :: rest)) as (init & d & Hlast); [done|].
  rewrite Hlast in H |- *. apply trimEnd_id. by apply trim_last in H.
Qed.

(** X2.  The text [execute] returns and stores is never empty, neither
    starts nor ends with a white-space character, and is not changed by
    trimming it again. *)
Theorem execute_stores_trimmed_text
    (newId : JsString → list Notes → JsString)
    (command : AddNoteToBudgetCommand) (t t' : Tools) (r : AddNoteToBudgetResult) :
  execute newId command t = (inr r, t') →
  note <$> last (documents (BUDGET_NOTES_REPO (orgId command) (budgetId command)) t')
    = Some (r_content r)
  ∧ r_content r ≠ []
  ∧ (∀ c rest, r_content r = c :: rest → Js.isWhiteSpace c = false)
  ∧ (∀ init c, r_content r = init ++ [c] → Js.isWhiteSpace c = false)
  ∧ Js.trim (r_content r) = r_content r.
Proof.
  intros Hrun. destruct (rejection command) as [msg|] eqn:Hrej.
  { destruct (execute_rejected newId command t msg Hrej) as (line & H).
    rewrite H in Hrun. discriminate Hrun. }
  destruct (execute_accepted newId command t Hrej) as (line & H).
  rewrite H in Hrun. injection Hrun as <- <-. simpl.
  apply rejection_None in Hrej as (Hcon & _ & _).
  split; [|split; [done|split; [apply trim_head|split; [apply trim_last|apply trim_idemp]]]].
  unfold documents at 1. simpl. rewrite lookup_insert_eq. simpl. by rewrite last_snoc.
Qed.

Lemma execute_stores_trimmed_text_example :
  ∃ r t',
    execute example_newId
      {| orgId := lit "o1"; budgetId := lit "b1"; content := lit "  two words " |} no_tools
      = (inr r, t')
    ∧ r_content r = lit "two words"
    ∧ note <$> last (documents (lit "orgs/o1/budgets/b1/notes") t') = Some (lit "two words")
    ∧ Js.trim (r_content r) = r_content r.
Proof.
  destruct (execute_accepted example_newId
              {| orgId := lit "o1"; budgetId := lit "b1"; content := lit "  two words " |}
              no_tools) as (line & Hrun); [by vm_compute|].
  eexists _, _. split; [exact Hrun|]. split; [reflexivity|].
  destruct (execute_stores_trimmed_text _ _ _ _ _ Hrun) as (Hlast & _ & _ & _ & Hidem).
  split; [exact Hlast | exact Hidem].
Defined.

(** X3.  [execute] removes white space from the two ends of the content
    and nothing else: the content of the command is the returned content
    with white space before and after it. *)
Theorem execute_trims_only_the_ends
    (newId : JsString → list Notes → JsString)
    (command : AddNoteToBudgetCommand) (t t' : Tools) (r : AddNoteToBudgetResult) :
  execute newId command t = (inr r, t') →
  ∃ pre post,
    content command = pre ++ r_content r ++ post
    ∧ forallb Js.isWhiteSpace pre = true
    ∧ forallb Js.isWhiteSpace post = true.
Proof.
  intros Hrun. destruct (rejection command) as [msg|] eqn:Hrej.
  { destruct (execute_rejected newId command t msg Hrej) as (line & H).
    rewrite H in Hrun. discriminate Hrun. }
  destruct (execute_accepted newId command t Hrej) as (line & H).
  rewrite H in Hrun. injection Hrun as <- <-. simpl. apply trim_decomp.
Qed.

Lemma execute_trims_only_the_ends_example :
  ∃ r t' pre post,
    execute example_newId
      {| orgId := lit "o1"; budgetId := lit "b1"; content := lit "  two words " |} no_tools
      = (inr r, t')
    ∧ lit "  two words " = pre ++ r_content r ++ post
    ∧ forallb Js.isWhiteSpace pre = true
    ∧ forallb Js.isWhiteSpace post = true.
Proof.
  destruct (execute_accepted example_newId
              {| orgId := lit "o1"; budgetId := lit "b1"; content := lit "  two words " |}
              no_tools) as (line & Hrun); [by vm_compute|].
  destruct (execute_trims_only_the_ends _ _ _ _ _ Hrun) as (pre & post & H).
  eexists _, _, pre, post. split; [exact Hrun | exact H].
Defined.

Lemma app_slash_inj (o1 o2 r1 r2 : JsString) :
  47%N ∉ o1 → 47%N ∉ o2 →
  o1 ++ 47%N :: r1 = o2 ++ 47%N :: r2 → o1 = o2 ∧ r1 = r2.
Proof.
  revert o2. induction o1 as [|c o1 IH]; intros [|d o2] H1 H2 H; simpl in H.
  - by injection H as <-.
  - injection H as <- _. exfalso. apply H2. by left.
  - injection H as -> _. exfalso. apply H1. by left.
  - injection H as <- H. apply not_elem_of_cons in H1 as [_ H1].
    apply not_elem_of_cons in H2 as [_ H2].
    by destruct (IH _ H1 H2 H) as [-> ->].
Qed.

(** X4.  For organisation IDs without [/], [BUDGET_NOTES_REPO] sends
    different pairs of organisation and budget to different paths. *)
Theorem BUDGET_NOTES_REPO_injective (org1 budget1 org2 budget2 : JsString) :
  47%N ∉ org1 → 47%N ∉ org2 →
  BUDGET_NOTES_REPO org1 budget1 = BUDGET_NOTES_REPO org2 budget2 →
  org1 = org2 ∧ budget1 = budget2.
Proof.
  intros H1 H2 H. unfold BUDGET_NOTES_REPO in H.
  apply app_inv_head in H.
  change (lit "/budgets/") with (47%N :: lit "budgets/") in H.
  rewrite <- !app_comm_cons in H.
  destruct (app_slash_inj _ _ _ _ H1 H2 H) as [-> Hrest]. split; [done|].
  apply app_inv_head in Hrest. by apply app_inv_tail in Hrest.
Qed.

Lemma BUDGET_NOTES_REPO_injective_example :
  BUDGET_NOTES_REPO (lit "o1") (lit "b1") = lit "orgs/o1/budgets/b1/notes"
  ∧ (lit "o1" = lit "o1" ∧ lit "b1" = lit "b1").
Proof.
  split; [reflexivity|].
  apply (BUDGET_NOTES_REPO_injective (lit "o1") (lit "b1") (lit "o1") (lit "b1"));
    [by apply (bool_decide_unpack _) | by apply (bool_decide_unpack _) | reflexivity].
Defined.

(** With a [/] in an organisation ID two pairs can share a path: the
    validation of [execute] lets such IDs through. *)
Example BUDGET_NOTES_REPO_collision :
  BUDGET_NOTES_REPO (lit "o/budgets/x") (lit "y")
  = BUDGET_NOTES_REPO (lit "o") (lit "x/budgets/y").
Proof. reflexivity. Qed.

(** X5.  [execute] only ever appends to the log: first the line naming
    budget and organisation, then one more line when it rejects the
    command and two more when it stores the note. *)
Theorem execute_appends_to_log
    (newId : JsString → list Notes → JsString)
    (command : AddNoteToBudgetCommand) (t : Tools) :
  ∃ added,
    Logger (execute newId command t).2 = Logger t ++ firstLine command :: added
    ∧ length added = match (execute newId command t).1 with
                     | inr _ => 2%nat
                     | inl _ => 1%nat
                     end.
Proof.
  destruct (rejection command) as [msg|] eqn:Hrej.
  - destruct (execute_rejected newId command t msg Hrej) as (line & ->).
    exists [line]. by split.
  - destruct (execute_accepted newId command t Hrej) as (line & ->).
    eexists [_; line]. by split.
Qed.

(** X6.  Two commands for the same organisation and budget, both with all
    fields filled, run one after the other, add their two notes to the
    end of that collection in the order of the calls, the second
    identifier assigned from the collection that already holds the first
    note; every other collection is as before. *)
Theorem execute_twice
    (newId : JsString → list Notes → JsString)
    (c1 c2 : AddNoteToBudgetCommand) (t : Tools) :
  Js.trim (content c1) ≠ [] → Js.trim (budgetId c1) ≠ [] → Js.trim (orgId c1) ≠ [] →
  Js.trim (content c2) ≠ [] →
  orgId c2 = orgId c1 → budgetId c2 = budgetId c1 →
  let path := BUDGET_NOTES_REPO (orgId c1) (budgetId c1) in
  ∃ r1 t1 r2 t2,
    execute newId c1 t = (inr r1, t1)
    ∧ execute newId c2 t1 = (inr r2, t2)
    ∧ documents path t2
      = documents path t ++ [ {| id := r_id r1; note := Js.trim (content c1) |};
                              {| id := r_id r2; note := Js.trim (content c2) |} ]
    ∧ r_id r1 = Some (newId path (documents path t))
    ∧ r_id r2 = Some (newId path (documents path t
                                    ++ [ {| id := r_id r1; note := Js.trim (content c1) |} ]))
    ∧ ∀ other, other ≠ path → collections t2 !! other = collections t !! other.
Proof.
  intros Hc1 Hb1 Ho1 Hc2 Ho Hb path.
  assert (rejection c1 = None) as Hr1 by (by apply rejection_None).
  assert (rejection c2 = None) as Hr2.
  { apply rejection_None. by rewrite Ho, Hb. }
  destruct (execute_accepted newId c1 t Hr1) as (line1 & Hrun1).
  match type of Hrun1 with
  | _ = (_, ?t1) => destruct (execute_accepted newId c2 t1 Hr2) as (line2 & Hrun2)
  end.
  eexists _, _, _, _. split; [exact Hrun1|]. split; [exact Hrun2|].
  rewrite Ho, Hb. fold path. simpl.
  assert (∀ m (d : list Notes) c, documents path {| Logger := m;
            collections := <[path := d]> c |} = d) as Hdoc.
  { intros m d c. unfold documents. simpl. by rewrite lookup_insert_eq. }
  rewrite !Hdoc. split; [by rewrite <- app_assoc|]. split; [done|]. split; [done|].
  intros other Hother. unfold documents at 1. simpl.
  by rewrite !lookup_insert_ne.
Qed.

Lemma execute_twice_example :
  ∃ r1 t1 r2 t2,
    execute example_newId
      {| orgId := lit "o1"; budgetId := lit "b1"; content := lit "first" |} no_tools
      = (inr r1, t1)
    ∧ execute example_newId
        {| orgId := lit "o1"; budgetId := lit "b1"; content := lit " second" |} t1
      = (inr r2, t2)
    ∧ documents (lit "orgs/o1/budgets/b1/notes") t2
      = [ {| id := Some (lit "note-0"); note := lit "first" |};
          {| id := Some (lit "note-1"); note := lit "second" |} ].
Proof.
  destruct (execute_twice example_newId
              {| orgId := lit "o1"; budgetId := lit "b1"; content := lit "first" |}
              {| orgId := lit "o1"; budgetId := lit "b1"; content := lit " second" |}
              no_tools)
    as (r1 & t1 & r2 & t2 & H1 & H2 & Hdocs & Hid1 & Hid2 & _);
    [by vm_compute | by vm_compute | by vm_compute | by vm_compute | done | done |].
  exists r1, t1, r2, t2. split; [exact H1|]. split; [exact H2|].
  etransitivity; [exact Hdocs|]. rewrite Hid2, Hid1. reflexivity.
Defined.

End AddNoteMore.

(* ===================================================================== *)
(** ** More on the aggregation *)
(* ===================================================================== *)

Module AggregatorMore.
Import Budgets Notions Examples MoreNotions AggregatorProps.

Lemma annotated_idemp (m : gmap ref Budget) (bs : list ref) :
  annotated (annotated m bs) bs = annotated m bs.
Proof.
  apply map_eq. intros l. rewrite !lookup_annotated.
  destruct (decide (l ∈ bs)); [|done]. by destruct (m !! l).
Qed.

Lemma annotated_is_Some (m : gmap ref Budget) (bs : list ref) l :
  is_Some (annotated m bs !! l) ↔ is_Some (m !! l).
Proof.
  rewrite lookup_annotated. destruct (decide (l ∈ bs)); [|done].
  by rewrite fmap_is_Some.
Qed.

(** The callback of [flatBudgets.map] stops at the first element that is
    [undefined], with the elements before it already written. *)
Lemma mapM_annotate_undefined pre : ∀ l post w,
  Forall (λ x, is_Some (budgets w !! x)) pre →
  budgets w !! l = None →
  mapM (λ budget,
          (updateBudget budget (λ b, set_endYear (startYear b + duration b - 1) b) ;;;
           ret budget)%eff) (pre ++ l :: post) w
  = (inl TypeError, with_budgets (λ m, annotated m pre) w).
Proof.
  set (f := λ budget : ref, _).
  induction pre as [|x pre IH]; intros l post w Hpre Hl.
  - cbn [app]. rewrite mapM_cons. unfold f at 1, bind at 1, updateBudget, bind, getBudget.
    rewrite Hl. by rewrite with_budgets_id.
  - apply Forall_cons in Hpre as [[b Hb] Hpre].
    cbn [app]. rewrite mapM_cons. unfold f at 1. unfold bind at 1.
    rewrite (updateBudget_run _ _ _ _ Hb). unfold ret at 1.
    assert (x ≠ l) as Hne by (intros ->; congruence).
    rewrite IH.
    + f_equal. unfold with_budgets. simpl. f_equal. unfold annotated. simpl.
      f_equal. apply map_eq. intros i. rewrite lookup_alter, lookup_insert.
      case_decide; subst; [by rewrite Hb | done].
    + eapply Forall_impl; [exact Hpre|]. intros y [b' Hy]. simpl.
      rewrite lookup_insert. case_decide; eauto.
    + simpl. by rewrite lookup_insert_ne.
Qed.

Lemma first_undefined (m : gmap ref Budget) (bs : list ref) :
  Forall (λ x, is_Some (m !! x)) bs
  ∨ ∃ pre l post, bs = pre ++ l :: post
                  ∧ Forall (λ x, is_Some (m !! x)) pre ∧ m !! l = None.
Proof.
  induction bs as [|x bs [IH | (pre & l & post & -> & Hpre & Hl)]].
  - by left.
  - destruct (m !! x) as [b|] eqn:Hx.
    + left. constructor; [by eexists | done].
    + right. by exists [], x, bs.
  - destruct (m !! x) as [b|] eqn:Hx.
    + right. exists (x :: pre), l, post. split; [done|]. split; [|done].
      constructor; [by eexists | done].
    + right. by exists [], x, (pre ++ l :: post).
Qed.

(** X7.  Recomputing [allBudgets] on the same inputs right after a run that
    returned gives the same value and changes nothing any more. *)
Theorem allBudgets_idempotent
    (overview : option ArraysObject) (sharedBudgets : option (list ref))
    (w w1 : World) (out : AllBudgets) :
  allBudgets overview sharedBudgets w = (inr out, w1) →
  allBudgets overview sharedBudgets w1 = (inr out, w1).
Proof.
  destruct overview as [ov|], sharedBudgets as [bs|];
    try (intros [= <- <-]; reflexivity).
  intros Hrun.
  destruct (first_undefined (budgets w) bs) as [Hall | (pre & l & post & -> & Hpre & Hl)].
  - rewrite (allBudgets_run _ _ _ Hall) in Hrun. injection Hrun as <- <-.
    rewrite allBudgets_run.
    + f_equal. unfold with_budgets. simpl. f_equal. apply annotated_idemp.
    + eapply Forall_impl; [exact Hall|]. intros l Hl. simpl. by apply annotated_is_Some.
  - unfold allBudgets in Hrun. rewrite flatMap_array_id in Hrun. unfold bind in Hrun.
    rewrite (mapM_annotate_undefined _ _ _ _ Hpre Hl) in Hrun. discriminate Hrun.
Qed.

Lemma allBudgets_idempotent_example :
  ∃ out w1,
    allBudgets (Some (OrgBudgetsOverview [11] [12] [13])%positive) (Some [1; 2]%positive)
      example_world = (inr out, w1)
    ∧ allBudgets (Some (OrgBudgetsOverview [11] [12] [13])%positive) (Some [1; 2]%positive)
        w1 = (inr out, w1).
Proof.
  eexists _, _.
  assert (Forall (λ l, is_Some (budgets example_world !! l)) [1; 2]%positive) as Hall
    by (repeat constructor; by eexists).
  pose proof (allBudgets_run (OrgBudgetsOverview [11] [12] [13])%positive _ _ Hall) as Hrun.
  split; [exact Hrun|]. exact (allBudgets_idempotent _ _ _ _ _ Hrun).
Defined.



Lemma concat_values_Permutation (o1 o2 : ArraysObject) :
  o1 ≡ₚ o2 → concat (o1.*2) ≡ₚ concat (o2.*2).
Proof.
  induction 1 as [|[k v] o1 o2 _ IH|[k1 v1] [k2 v2] o|o1 o2 o3 _ IH1 _ IH2]; simpl.
  - done.
  - by rewrite IH.
  - rewrite !app_assoc. f_equiv. apply Permutation_app_comm.
  - by rewrite IH1.
Qed.

(** X9.  The order of the properties of the overview object decides only
    the order of the [overview] part: two overview objects with the same
    properties in a different order give the same records, each as often,
    and the same [budgets] part. *)
Theorem allBudgets_overview_up_to_order
    (overview1 overview2 : ArraysObject) (sharedBudgets : list ref) (w : World) :
  overview1 ≡ₚ overview2 →
  Forall (λ l, is_Some (budgets w !! l)) sharedBudgets →
  ∃ out1 out2 w',
    allBudgets (Some overview1) (Some sharedBudgets) w = (inr out1, w')
    ∧ allBudgets (Some overview2) (Some sharedBudgets) w = (inr out2, w')
    ∧ ab_overview out1 ≡ₚ ab_overview out2
    ∧ ab_budgets out1 = ab_budgets out2.
Proof.
  intros Hperm Hall. eexists _, _, _.
  split; [by apply allBudgets_run|]. split; [by apply allBudgets_run|].
  simpl. split; [|done]. rewrite !flatMap_object_concat.
  by apply concat_values_Permutation.
Qed.

Lemma allBudgets_overview_up_to_order_example :
  ∃ out1 out2 w',
    allBudgets (Some (OrgBudgetsOverview [11] [12] [13])%positive) (Some [1%positive])
      example_world = (inr out1, w')
    ∧ allBudgets
        (Some [("archived", [13]); ("inUse", [11]); ("underConstruction", [12])]%string%positive)
        (Some [1%positive]) example_world = (inr out2, w')
    ∧ ab_overview out1 ≡ₚ ab_overview out2
    ∧ ab_budgets out1 = ab_budgets out2.
Proof.
  apply allBudgets_overview_up_to_order.
  - unfold OrgBudgetsOverview.
    etransitivity; [apply Permutation_skip, Permutation_swap | apply Permutation_swap].
  - repeat constructor; by eexists.
Defined.

End AggregatorMore.

(* ===================================================================== *)
(** ** More on the promotion *)
(* ===================================================================== *)

Module PromotionMore.
Import Budgets Notions Examples MoreNotions AggregatorProps PromotionProps.

(** X10.  [setActive] on a record that is [undefined], or whose budget is,
    throws a TypeError before anything is written: no update is requested
    and [updating] is not set. *)
Theorem setActive_undefined (record : ref) (w : World) :
  records w !! record = None
  ∨ (∃ r, records w !! record = Some r ∧ budgets w !! budget r = None) →
  setActive record w = (inl TypeError, w).
Proof.
  intros [Hr | (r & Hr & Hb)]; unfold setActive; unfold bind at 1; unfold getRecord;
    rewrite Hr; [done|].
  unfold bind at 1. unfold ___cloneDeep. rewrite Hb.
  unfold bind at 1. unfold updateBudget, bind, getBudget. by rewrite Hb.
Qed.

Lemma setActive_undefined_examples :
  setActive 99%positive example_world = (inl TypeError, example_world)
  ∧ setActive 14%positive example_world_orphan = (inl TypeError, example_world_orphan).
Proof.
  split.
  - apply setActive_undefined. by left.
  - apply setActive_undefined. right. by eexists.
Defined.

(** X11.  [setActive] called twice on the same record, before the store
    settles, requests two updates: each gets a copy of its own, both
    sanitized, and the record's budget is still as it was. *)
Theorem setActive_twice (record : ref) (r : BudgetRecord) (b : Budget) (w : World) :
  records w !! record = Some r →
  budgets w !! budget r = Some b →
  ∃ obs1 w1 obs2 w2 toSave1 toSave2,
    setActive record w = (inr obs1, w1)
    ∧ setActive record w1 = (inr obs2, w2)
    ∧ updates w2 = updates w ++ [toSave1; toSave2]
    ∧ toSave1 ≠ toSave2
    ∧ budgets w2 !! toSave1 = Some (sanitized b)
    ∧ budgets w2 !! toSave2 = Some (sanitized b)
    ∧ budgets w2 !! budget r = Some b.
Proof.
  intros Hr Hb.
  pose proof (setActive_run _ _ _ _ Hr Hb) as Hrun1. cbv zeta in Hrun1.
  set (t1 := fresh (dom (budgets w))) in *.
  assert (budget r ≠ t1) as Hne1.
  { intros Heq. pose proof (fresh_unused (budgets w)) as Hf. fold t1 in Hf. congruence. }
  match type of Hrun1 with _ = (_, ?x) => set (w1 := x) in * end.
  assert (records w1 !! record = Some (set_updating true r)) as Hr1
    by apply lookup_insert_eq.
  assert (budgets w1 !! budget (set_updating true r) = Some b) as Hb1.
  { simpl. by rewrite lookup_insert_ne. }
  pose proof (setActive_run _ _ _ _ Hr1 Hb1) as Hrun2. cbv zeta in Hrun2.
  set (t2 := fresh (dom (budgets w1))) in *.
  assert (t1 ≠ t2) as Hne.
  { intros Heq. pose proof (fresh_unused (budgets w1)) as Hf. fold t2 in Hf.
    rewrite <- Heq in Hf. simpl in Hf. by rewrite lookup_insert_eq in Hf. }
  assert (budget r ≠ t2) as Hne2.
  { intros Heq. pose proof (fresh_unused (budgets w1)) as Hf. fold t2 in Hf.
    rewrite <- Heq in Hf. simpl in Hf. rewrite lookup_insert_ne in Hf by done. congruence. }
  eexists _, _, _, _, t1, t2. split; [exact Hrun1|]. split; [exact Hrun2|].
  simpl. split; [by rewrite <- app_assoc|]. split; [done|].
  split; [by rewrite lookup_insert_ne, lookup_insert_eq|].
  split; [by rewrite lookup_insert_eq|].
  by rewrite !lookup_insert_ne.
Qed.

Lemma setActive_twice_example :
  ∃ obs1 w1 obs2 w2 toSave1 toSave2,
    setActive 11%positive example_world = (inr obs1, w1)
    ∧ setActive 11%positive w1 = (inr obs2, w2)
    ∧ updates w2 = [toSave1; toSave2]
    ∧ toSave1 ≠ toSave2
    ∧ budgets w2 !! toSave1 = Some (sanitized (example_budget (lit "b1") 2020 3 None))
    ∧ budgets w2 !! toSave2 = Some (sanitized (example_budget (lit "b1") 2020 3 None))
    ∧ budgets w2 !! 1%positive = Some (example_budget (lit "b1") 2020 3 None).
Proof.
  exact (setActive_twice 11%positive
           {| budget := 1%positive; children := [13%positive]; updating := None |}
           (example_budget (lit "b1") 2020 3 None) example_world eq_refl eq_refl).
Defined.

(** X12.  A promotion from request to settlement: the record is the record
    it was, with [updating] false; its budget and every other budget that
    existed are untouched; one update was requested and one line logged,
    naming the budget on success and the error on failure; no dialog was
    opened. *)
Theorem setActive_then_settle
    (record : ref) (r : BudgetRecord) (b : Budget) (s : Settlement) (w : World) :
  records w !! record = Some r →
  budgets w !! budget r = Some b →
  ∃ obs w1 w3,
    setActive record w = (inr obs, w1)
    ∧ settle obs s w1 = (inr tt, w3)
    ∧ records w3 = <[record := set_updating false r]> (records w)
    ∧ (∀ l, is_Some (budgets w !! l) → budgets w3 !! l = budgets w !! l)
    ∧ length (updates w3) = S (length (updates w))
    ∧ logs w3 = logs w ++ [settledLine b s]
    ∧ dialogs w3 = dialogs w.
Proof.
  intros Hr Hb.
  pose proof (setActive_run _ _ _ _ Hr Hb) as Hrun1. cbv zeta in Hrun1.
  set (t1 := fresh (dom (budgets w))) in *.
  match type of Hrun1 with _ = (_, ?x) => set (w1 := x) in * end.
  assert (records w1 !! record = Some (set_updating true r)) as Hr1
    by apply lookup_insert_eq.
  assert (budgets w1 !! t1 = Some (sanitized b)) as Ht1 by apply lookup_insert_eq.
  assert (∀ l, is_Some (budgets w !! l) → <[t1 := sanitized b]> (budgets w) !! l
                                           = budgets w !! l) as Hold.
  { intros l [b' Hl]. rewrite lookup_insert_ne; [done|].
    intros <-. pose proof (fresh_unused (budgets w)) as Hf. fold t1 in Hf. congruence. }
  destruct s as [|e]; eexists _, w1, _; (split; [exact Hrun1|]); split.
  - exact (onNext_run _ _ _ _ _ Hr1 Ht1).
  - simpl. split; [by rewrite insert_insert_eq|]. split; [exact Hold|].
    split; [by rewrite length_app, Nat.add_1_r | done].
  - exact (onError_run _ e _ _ Hr1).
  - simpl. split; [by rewrite insert_insert_eq|]. split; [exact Hold|].
    split; [by rewrite length_app, Nat.add_1_r | done].
Qed.

Lemma setActive_then_settle_example :
  ∃ obs w1 w3,
    setActive 12%positive example_world = (inr obs, w1)
    ∧ settle obs (Fails (lit "permission-denied")) w1 = (inr tt, w3)
    ∧ records w3 !! 12%positive
      = Some {| budget := 3%positive; children := []; updating := Some false |}
    ∧ logs w3 = [lit "Error updating budget: permission-denied"].
Proof.
  destruct (setActive_then_settle 12%positive
              {| budget := 3%positive; children := []; updating := None |}
              (example_budget (lit "b3") 2021 5 None) (Fails (lit "permission-denied"))
              example_world eq_refl eq_refl)
    as (obs & w1 & w3 & Hrun & Hsettle & Hrec & _ & _ & Hlog & _).
  exists obs, w1, w3. split; [exact Hrun|]. split; [exact Hsettle|].
  rewrite Hrec, Hlog. split; reflexivity.
Defined.

(** X13.  Requesting a promotion does not change what [canPromote] answers
    for the record: [canBeActivated] is removed from the copy only. *)
Theorem setActive_keeps_canPromote (record : ref) (r : BudgetRecord) (b : Budget) (w : World) :
  records w !! record = Some r →
  budgets w !! budget r = Some b →
  ∃ obs w1,
    setActive record w = (inr obs, w1)
    ∧ canPromote record w = (inr (canBeActivated b), w)
    ∧ canPromote record w1 = (inr (canBeActivated b), w1).
Proof.
  intros Hr Hb.
  pose proof (setActive_run _ _ _ _ Hr Hb) as Hrun1. cbv zeta in Hrun1.
  eexists _, _. split; [exact Hrun1|].
  unfold canPromote, bind, getRecord, getBudget. rewrite Hr, Hb. split; [done|].
  simpl. rewrite lookup_insert_eq. simpl. rewrite lookup_insert_ne; [by rewrite Hb|].
  intros Heq. pose proof (fresh_unused (budgets w)) as Hf. congruence.
Qed.

Lemma setActive_keeps_canPromote_example :
  ∃ obs w1,
    setActive 11%positive example_world = (inr obs, w1)
    ∧ canPromote 11%positive example_world = (inr (Some true), example_world)
    ∧ canPromote 11%positive w1 = (inr (Some true), w1).
Proof.
  exact (setActive_keeps_canPromote 11%positive
           {| budget := 1%positive; children := [13%positive]; updating := None |}
           (example_budget (lit "b1") 2020 3 None) example_world eq_refl eq_refl).
Defined.

End PromotionMore.

(* ===================================================================== *)
(** ** More on the budget table *)
(* ===================================================================== *)

Module TableMore.
Import Budgets Notions Examples MoreNotions AggregatorProps TableProps AggregatorMore.

(** X14.  [translateStatus] gives the empty string exactly for the numbers
    that are no [BudgetStatus], and different statuses get different
    keys. *)
Theorem translateStatus_known :
  (∀ status : Z,
     translateStatus status = lit ""
     ↔ status ∉ [BudgetStatus.InUse; BudgetStatus.UnderConstruction;
                 BudgetStatus.Archived; BudgetStatus.Deleted])
  ∧ (∀ s1 s2 : Z,
       translateStatus s1 ≠ lit "" →
       translateStatus s1 = translateStatus s2 → s1 = s2).
Proof.
  assert (∀ status : Z,
            status ∈ [1; 0; 9; -1] ∨ translateStatus status = lit "") as Hcases.
  { intros status. destruct status as [|q|q].
    - left. set_solver.
    - repeat (destruct q as [q|q|]; try (by right); try (left; set_solver)).
    - repeat (destruct q as [q|q|]; try (by right); try (left; set_solver)). }
  assert (∀ status : Z, status ∈ [1; 0; 9; -1] → translateStatus status ≠ lit "") as Hknown.
  { intros status Hin. repeat (apply elem_of_cons in Hin as [-> | Hin]; [by vm_compute|]).
    by apply elem_of_nil in Hin. }
  split.
  - intros status. unfold BudgetStatus.InUse, BudgetStatus.UnderConstruction,
      BudgetStatus.Archived, BudgetStatus.Deleted. split.
    + intros Hempty Hin. by apply (Hknown status).
    + intros Hout. by destruct (Hcases status).
  - intros s1 s2 Hne Heq.
    destruct (Hcases s1) as [H1 | H1]; [|done].
    destruct (Hcases s2) as [H2 | H2]; [|congruence].
    repeat (apply elem_of_cons in H1 as [-> | H1];
            [repeat (apply elem_of_cons in H2 as [-> | H2];
                     [first [reflexivity | by vm_compute in Heq]|]);
             by apply elem_of_nil in H2|]).
    by apply elem_of_nil in H1.
Qed.

(** X15.  With an empty overview cache [openChildBudgetDialog] does not
    read [parent] at all: it opens the dialog with [undefined] children
    even for a parent that is [undefined].  With a record to compare and a
    parent that is [undefined] it throws a TypeError and opens nothing. *)
Theorem openChildBudgetDialog_undefined_parent (parent : ref) (w : World) :
  (overviewBudgets w = [] →
     openChildBudgetDialog parent w
     = (inr tt, with_dialogs (λ d, d ++ [childrenDialog parent None]) w))
  ∧ (∀ l rest r b,
       budgets w !! parent = None →
       overviewBudgets w = l :: rest →
       records w !! l = Some r →
       budgets w !! budget r = Some b →
       openChildBudgetDialog parent w = (inl TypeError, w)).
Proof.
  split.
  - intros Hov. unfold openChildBudgetDialog.
    unfold bind at 1. unfold get. by rewrite Hov.
  - intros l rest r b Hp Hov Hr Hb. unfold openChildBudgetDialog.
    unfold bind at 1. unfold get. rewrite Hov. unfold bind at 1. cbn [find].
    unfold bind at 1. unfold sameId, bind, getRecord, getBudget.
    by rewrite Hr, Hb, Hp.
Qed.

Lemma openChildBudgetDialog_undefined_parent_examples :
  openChildBudgetDialog 99%positive example_world_no_overview
    = (inr tt, with_dialogs (λ d, d ++ [childrenDialog 99%positive None])
                 example_world_no_overview)
  ∧ openChildBudgetDialog 99%positive example_world = (inl TypeError, example_world).
Proof.
  split.
  - apply (openChildBudgetDialog_undefined_parent 99%positive). reflexivity.
  - eapply (openChildBudgetDialog_undefined_parent 99%positive example_world); reflexivity.
Defined.

(** *** Reading the store does not change it *)

Lemma getRecord_snd l w : (getRecord l w).2 = w.
Proof. unfold getRecord. by destruct (records w !! l). Qed.

Lemma getBudget_snd l w : (getBudget l w).2 = w.
Proof. unfold getBudget. by destruct (budgets w !! l). Qed.

Lemma sameId_snd parent l w : (sameId parent l w).2 = w.
Proof.
  unfold sameId, bind, getRecord, getBudget.
  destruct (records w !! l) as [r|]; [|done].
  destruct (budgets w !! budget r); [|done]. by destruct (budgets w !! parent).
Qed.

Lemma find_sameId_snd parent xs w : (find (sameId parent) xs w).2 = w.
Proof.
  induction xs as [|x xs IH]; [done|]. cbn [find]. unfold bind.
  pose proof (sameId_snd parent x w) as Hx.
  destruct (sameId parent x w) as [[e|[|]] w']; simpl in Hx; subst w'; done.
Qed.

Lemma optChildren_snd o w : (optChildren o w).2 = w.
Proof.
  destruct o as [l|]; [|done]. unfold optChildren, bind, getRecord.
  by destruct (records w !! l).
Qed.

Lemma mapM_child_snd cs : ∀ w,
  (mapM (λ child, (r <- getRecord child ;; ret (budget r))%eff) cs w).2 = w.
Proof.
  set (f := λ child : ref, _).
  induction cs as [|c cs IH]; intros w; [done|].
  rewrite mapM_cons. unfold f at 1. unfold bind, getRecord.
  destruct (records w !! c) as [r|]; [|done]. unfold ret at 1.
  specialize (IH w). by destruct (mapM f cs w) as [[e|ys] w'']; simpl in IH; subst.
Qed.

Lemma optMapBudget_snd o w : (optMapBudget o w).2 = w.
Proof.
  destruct o as [cs|]; [|done]. unfold optMapBudget, bind.
  pose proof (mapM_child_snd cs w) as H.
  by destruct (mapM _ cs w) as [[e|bs] w']; simpl in H; subst.
Qed.

Lemma openChildBudgetDialog_childrenFor parent w :
  openChildBudgetDialog parent w
  = match childrenFor parent w with
    | inl e => (inl e, w)
    | inr children =>
        (inr tt, with_dialogs (λ d, d ++ [childrenDialog parent children]) w)
    end.
Proof.
  unfold openChildBudgetDialog, childrenFor. unfold bind at 1. unfold get.
  unfold bind at 1.
  pose proof (find_sameId_snd parent (overviewBudgets w) w) as H1.
  destruct (find (sameId parent) (overviewBudgets w) w) as [[e|found] w1];
    simpl in H1; subst w1; [done|]. simpl.
  unfold bind at 1. pose proof (optChildren_snd found w) as H2.
  destruct (optChildren found w) as [[e|children] w2]; simpl in H2; subst w2; [done|].
  simpl. unfold bind at 1. pose proof (optMapBudget_snd children w) as H3.
  by destruct (optMapBudget children w) as [[e|children'] w3]; simpl in H3; subst w3.
Qed.

Lemma sameId_annotated parent l bs w :
  (sameId parent l (with_budgets (λ m, annotated m bs) w)).1 = (sameId parent l w).1.
Proof.
  unfold sameId, bind, getRecord, getBudget. simpl.
  destruct (records w !! l) as [r|]; [|done]. simpl.
  rewrite lookup_annotated.
  assert (∀ o : option Budget,
            (if decide (budget r ∈ bs) then derive_endYear <$> o else o)
            = match o with
              | Some b => Some (if decide (budget r ∈ bs) then derive_endYear b else b)
              | None => None
              end) as -> by (intros [b|]; by case_decide).
  destruct (budgets w !! budget r) as [b|]; [|done]. simpl.
  rewrite lookup_annotated.
  destruct (budgets w !! parent) as [p|]; repeat case_decide; done.
Qed.

Lemma find_sameId_annotated parent bs xs w :
  (find (sameId parent) xs (with_budgets (λ m, annotated m bs) w)).1
  = (find (sameId parent) xs w).1.
Proof.
  induction xs as [|x xs IH]; [done|]. cbn [find]. unfold bind.
  pose proof (sameId_annotated parent x bs w) as H.
  pose proof (sameId_snd parent x w) as H1.
  pose proof (sameId_snd parent x (with_budgets (λ m, annotated m bs) w)) as H2.
  destruct (sameId parent x w) as [res w1],
           (sameId parent x (with_budgets _ w)) as [res' w2].
  simpl in H, H1, H2. subst res' w1 w2. by destruct res as [e|[|]].
Qed.

Lemma mapM_child_annotated bs cs : ∀ w,
  (mapM (λ child, (r <- getRecord child ;; ret (budget r))%eff) cs
     (with_budgets (λ m, annotated m bs) w)).1
  = (mapM (λ child, (r <- getRecord child ;; ret (budget r))%eff) cs w).1.
Proof.
  set (f := λ child : ref, _).
  induction cs as [|c cs IH]; intros w; [done|].
  rewrite !mapM_cons. unfold f at 1 3. unfold bind, getRecord. simpl.
  destruct (records w !! c) as [r|]; [|done]. unfold ret at 1 2.
  specialize (IH w).
  pose proof (mapM_child_snd cs w) as H1.
  pose proof (mapM_child_snd cs (with_budgets (λ m, annotated m bs) w)) as H2.
  fold f in H1, H2.
  destruct (mapM f cs w) as [res w1],
           (mapM f cs (with_budgets _ w)) as [res' w2].
  simpl in IH, H1, H2. subst res' w1 w2. by destruct res as [e|ys].
Qed.

Lemma childrenFor_annotated parent bs w :
  childrenFor parent (with_budgets (λ m, annotated m bs) w) = childrenFor parent w.
Proof.
  unfold childrenFor. cbn [overviewBudgets with_budgets].
  rewrite find_sameId_annotated.
  destruct (find (sameId parent) (overviewBudgets w) w).1 as [e|found]; [done|].
  assert ((optChildren found (with_budgets (λ m, annotated m bs) w)).1
          = (optChildren found w).1) as ->.
  { destruct found as [l|]; [|done]. unfold optChildren, bind, getRecord. simpl.
    by destruct (records w !! l). }
  destruct (optChildren found w).1 as [e|[cs|]]; [done| |done].
  unfold optMapBudget, bind.
  pose proof (mapM_child_annotated bs cs w) as H.
  destruct (mapM _ cs w) as [res w1], (mapM _ cs (with_budgets _ w)) as [res' w2].
  simpl in H. subst. by destruct res as [e|ys].
Qed.

(** X16.  [openChildBudgetDialog] does the same whether or not [allBudgets]
    has run in between: it returns or throws alike and opens the dialog
    with the same parent and children. *)
Theorem openChildBudgetDialog_after_allBudgets
    (overview : option ArraysObject) (sharedBudgets : option (list ref))
    (parent : ref) (w w1 w2 : World) (out : AllBudgets) (res : Exn + unit) :
  allBudgets overview sharedBudgets w = (inr out, w1) →
  openChildBudgetDialog parent w = (res, w2) →
  ∃ w3, openChildBudgetDialog parent w1 = (res, w3) ∧ dialogs w3 = dialogs w2.
Proof.
  intros Hagg Hopen.
  assert (childrenFor parent w1 = childrenFor parent w ∧ dialogs w1 = dialogs w) as [Hc Hd].
  { destruct overview as [ov|], sharedBudgets as [bs|];
      try (injection Hagg as _ <-; done).
    destruct (first_undefined (budgets w) bs) as [Hall | (pre & l & post & -> & Hpre & Hl)].
    - rewrite (allBudgets_run _ _ _ Hall) in Hagg. injection Hagg as _ <-.
      split; [apply childrenFor_annotated | done].
    - unfold allBudgets in Hagg. rewrite flatMap_array_id in Hagg. unfold bind in Hagg.
      rewrite (mapM_annotate_undefined _ _ _ _ Hpre Hl) in Hagg. discriminate Hagg. }
  rewrite openChildBudgetDialog_childrenFor in Hopen |- *. rewrite Hc.
  destruct (childrenFor parent w) as [e|children]; injection Hopen as <- <-;
    eexists; (split; [reflexivity|]); simpl; by rewrite ?Hd.
Qed.

Lemma openChildBudgetDialog_after_allBudgets_example :
  ∃ out w1 w2 w3,
    allBudgets (Some (OrgBudgetsOverview [11] [12] [13])%positive) (Some [1; 2; 4]%positive)
      example_world = (inr out, w1)
    ∧ openChildBudgetDialog 1%positive example_world = (inr tt, w2)
    ∧ openChildBudgetDialog 1%positive w1 = (inr tt, w3)
    ∧ dialogs w3 = dialogs w2
    ∧ dialogs w2 = [childrenDialog 1%positive (Some [4%positive])].
Proof.
  assert (Forall (λ l, is_Some (budgets example_world !! l)) [1; 2; 4]%positive) as Hall
    by (repeat constructor; by eexists).
  pose proof (allBudgets_run (OrgBudgetsOverview [11] [12] [13])%positive _ _ Hall) as Hagg.
  assert (openChildBudgetDialog 1%positive example_world
          = (inr tt, with_dialogs (λ d, d ++ [childrenDialog 1%positive (Some [4%positive])])
                       example_world)) as Hopen by reflexivity.
  destruct (openChildBudgetDialog_after_allBudgets _ _ _ _ _ _ _ _ Hagg Hopen)
    as (w3 & Hopen' & Hd).
  eexists _, _, _, w3. split; [exact Hagg|]. split; [exact Hopen|].
  split; [exact Hopen'|]. split; [exact Hd | reflexivity].
Defined.

End TableMore.

(* ===================================================================== *)
(** ** Properties of the dialogs that take a parent budget *)
(* ===================================================================== *)

Module DialogsProps.
Import Dialogs.

(** X17.  Each of the three openers opens exactly one dialog and gives it
    the budget when it was called with one and [false] in every other
    case: the dialog never gets [null] or [undefined].  The page's
    [openDialog] and the table's [openCloneBudgetDialog] open the same
    dialog. *)
Theorem dialog_data_budget_or_false (parent : Parent) (opened : list Opened) :
  (∀ opener,
     opener ∈ [openShareBudgetDialog; openCloneBudgetDialog; openDialog] →
     ∃ o, opener parent opened = (inr tt, opened ++ [o])
          ∧ data (config o) = match parent with
                              | PBudget b => PBudget b
                              | PFalse | PNull | PUndefined => PFalse
                              end
          ∧ notNull (data (config o)) = true)
  ∧ openDialog parent opened = openCloneBudgetDialog parent opened.
Proof.
  split; [|reflexivity].
  intros opener Hin.
  repeat (apply elem_of_cons in Hin as [-> | Hin];
          [eexists; split; [reflexivity|]; by destruct parent|]).
  by apply elem_of_nil in Hin.
Qed.

Lemma dialog_data_budget_or_false_example :
  ∃ o, openShareBudgetDialog PUndefined [] = (inr tt, [o])
       ∧ data (config o) = PFalse
       ∧ notNull (data (config o)) = true.
Proof.
  destruct (dialog_data_budget_or_false PUndefined []) as [H _].
  apply (H openShareBudgetDialog). apply elem_of_cons. by left.
Defined.

End DialogsProps.
